(** * Contoso Customer Service tool server: the data-access handlers

    A shallow embedding of [mcp/mcp_server.py]: the five tool handlers
    ([list_customers], [get_customer], [get_billing_summary],
    [get_support_tickets], [create_support_ticket]), the record models they
    return and the relational store they query.

    - The store is the content of [contoso.db]: one list of rows per table, in
      row order.  The table declarations are not part of the sources; columns
      are typed after the record models and the statements that read them.
    - Amounts ([REAL] columns, Python [float]) are binary64 floats.  The two
      sums the code leaves to its runtime, Python's [sum] and SQLite's [SUM],
      are taken from a [Runtime], so nothing proved depends on how they
      round or in what order they add.
    - A handler is a computation over a [World]: the committed store, the
      connection's open transaction, counters of the connections opened and
      closed and of the statements issued, the wall clock, and the schedule
      of failures decided by the environment: whether a statement sent to
      the store raises, and whether a row fails the validation of its record
      model (rows are typed here, so what makes a row unfit is not
      modelled). *)

From Stdlib Require Import ZArith List String Ascii Bool Lia.
From Stdlib Require Import Permutation Sorted OrderedTypeEx.
From Stdlib Require Import DecimalString DecimalZ DecimalPos.
From Stdlib Require Import PrimFloat.
Import ListNotations.

Open Scope string_scope.
Open Scope Z_scope.
Open Scope list_scope.

(** ** Tables *)

Module Customers.
Record row := mk {
  customer_id : Z;
  first_name : string;
  last_name : string;
  email : string;
  phone : option string;
  loyalty_level : string
}.
End Customers.

Module Subscriptions.
Record row := mk {
  subscription_id : Z;
  customer_id : Z
}.
End Subscriptions.

Module Invoices.
Record row := mk {
  invoice_id : Z;
  subscription_id : Z;
  amount : float;
  due_date : string
}.
End Invoices.

Module Payments.
Record row := mk {
  invoice_id : Z;
  amount : float;
  status : string
}.
End Payments.

Module SupportTickets.
Record row := mk {
  ticket_id : Z;
  customer_id : Z;
  subscription_id : option Z;
  category : string;
  opened_at : string;
  closed_at : option string;
  status : string;
  priority : string;
  subject : string;
  description : string;
  cs_agent : string
}.
End SupportTickets.

Record Store := mkStore {
  tbl_Customers : list Customers.row;
  tbl_Subscriptions : list Subscriptions.row;
  tbl_Invoices : list Invoices.row;
  tbl_Payments : list Payments.row;
  tbl_SupportTickets : list SupportTickets.row
}.

(** ** Pydantic models *)

Module Customer.
Record t := mk {
  customer_id : Z;
  first_name : string;
  last_name : string;
  email : string;
  phone : option string;
  loyalty_level : string
}.
End Customer.

(** One entry of [BillingSummary.invoices] (a [dict] in the source). *)
Module InvoiceEntry.
Record t := mk {
  invoice_id : Z;
  amount : float;
  paid : float;
  outstanding : float;
  due_date : string
}.
End InvoiceEntry.

Module BillingSummary.
Record t := mk {
  customer_id : Z;
  total_due : float;
  invoices : list InvoiceEntry.t
}.
End BillingSummary.

Module SupportTicket.
Record t := mk {
  ticket_id : Z;
  customer_id : Z;
  subject : string;
  description : string;
  status : string;
  priority : string;
  opened_at : string;
  closed_at : option string
}.
End SupportTicket.

(** The fields of [Customer( **dict(r))] for a row of the six selected
    columns. *)
Definition Customer_of_row (r : Customers.row) : Customer.t :=
  Customer.mk (Customers.customer_id r) (Customers.first_name r)
    (Customers.last_name r) (Customers.email r) (Customers.phone r)
    (Customers.loyalty_level r).

(** The fields of [SupportTicket( **dict(r))] for a row of the eight
    selected columns. *)
Definition SupportTicket_of_row (r : SupportTickets.row) : SupportTicket.t :=
  SupportTicket.mk (SupportTickets.ticket_id r) (SupportTickets.customer_id r)
    (SupportTickets.subject r) (SupportTickets.description r)
    (SupportTickets.status r) (SupportTickets.priority r)
    (SupportTickets.opened_at r) (SupportTickets.closed_at r).

(** ** Exceptions and results *)

Inductive exn :=
| ValueError (msg : string)
| TypeError
| sqlite3_Error
| pydantic_ValidationError.

Inductive result (A : Type) :=
| Return (a : A)
| Raise (e : exn).
Arguments Return {A} a.
Arguments Raise {A} e.

(** [str(n)] for a Python [int]. *)
Definition str (n : Z) : string := NilZero.string_of_int (Z.to_int n).

(** [f"Customer {customer_id} not found"] *)
Definition not_found_msg (customer_id : Z) : string :=
  "Customer " ++ str customer_id ++ " not found".

Definition priority_msg : string :=
  "Priority must be 'low', 'medium', or 'high'".

(** The two failures the handlers raise themselves. *)
Definition NotFound (customer_id : Z) : exn := ValueError (not_found_msg customer_id).
Definition ValidationError : exn := ValueError priority_msg.

(** ** Floats and the runtime *)

(** [max(a, b)] of Python on two floats: [b] when [b > a], else [a]. *)
Definition py_max (a b : float) : float :=
  if PrimFloat.ltb a b then b else a.

(** The sums the code leaves to its runtime: [sum(...)] of Python over a
    sequence of floats, which is 0 for the empty sequence, and [SUM(...)] of
    SQLite over the values of a group that are not NULL, when there is one. *)
Class Runtime := {
  py_sum : list float -> float;
  sqlite_sum : list float -> float;
  py_sum_nil : py_sum [] = 0%float
}.

(** ** The wall clock *)

Record datetime := mkDatetime {
  year : Z; month : Z; day : Z;
  hour : Z; minute : Z; second : Z;
  microsecond : Z
}.

Definition digit (n : Z) : ascii := ascii_of_N (Z.to_N (48 + n mod 10)).

(** [%m], [%d], [%H], [%M], [%S]: two digits, zero-padded. *)
Definition pad2 (n : Z) : string :=
  String (digit (n / 10)) (String (digit n) EmptyString).

(** [%Y]: the year with century, four digits. *)
Definition pad4 (n : Z) : string :=
  String (digit (n / 1000)) (String (digit (n / 100)) (pad2 n)).

(** [dt.strftime("%Y-%m-%d %H:%M:%S")] *)
Definition strftime (dt : datetime) : string :=
  pad4 (year dt) ++ "-" ++ pad2 (month dt) ++ "-" ++ pad2 (day dt) ++ " " ++
  pad2 (hour dt) ++ ":" ++ pad2 (minute dt) ++ ":" ++ pad2 (second dt).

(** The values a [datetime] can hold from year 1000 on, where [%Y] has four
    digits on every platform. *)
Definition valid_datetime (dt : datetime) : Prop :=
  1000 <= year dt <= 9999 /\ 1 <= month dt <= 12 /\ 1 <= day dt <= 31 /\
  0 <= hour dt <= 23 /\ 0 <= minute dt <= 59 /\ 0 <= second dt <= 59.

Definition is_digit (c : ascii) : bool :=
  ((48 <=? N_of_ascii c) && (N_of_ascii c <=? 57))%N.

(** The fixed-width shape [YYYY-MM-DD HH:MM:SS]. *)
Definition is_timestamp (s : string) : bool :=
  match list_ascii_of_string s with
  | [y1; y2; y3; y4; d1; m1; m2; d2; a1; a2; sp; h1; h2; c1; n1; n2; c2; s1; s2] =>
      forallb is_digit [y1; y2; y3; y4; m1; m2; a1; a2; h1; h2; n1; n2; s1; s2]
      && Ascii.eqb d1 "-" && Ascii.eqb d2 "-" && Ascii.eqb sp " "
      && Ascii.eqb c1 ":" && Ascii.eqb c2 ":"
  | _ => false
  end.

(** ** The world a handler runs in *)

Record World := mkWorld {
  disk : Store;              (* the committed content of contoso.db *)
  txn : option Store;        (* the connection's uncommitted view, if any *)
  opened : nat;              (* connections opened so far *)
  closed : nat;              (* connections closed so far *)
  stmts : nat;               (* statements sent to the store so far *)
  faults : list bool;        (* whether the next fallible steps raise *)
  clock : datetime           (* what datetime.now() reads *)
}.

Definition M (A : Type) : Type := World -> result A * World.

Definition ret {A} (a : A) : M A := fun w => (Return a, w).

Definition raise {A} (e : exn) : M A := fun w => (Raise e, w).

Definition bind {A B} (m : M A) (k : A -> M B) : M B :=
  fun w =>
    match m w with
    | (Return a, w') => k a w'
    | (Raise e, w') => (Raise e, w')
    end.

Notation "x <- m ;; k" := (bind m (fun x => k))
  (at level 61, m at next level, right associativity).
Notation "m ;; k" := (bind m (fun _ => k))
  (at level 61, right associativity).

(** What the connection reads: its own transaction when one is open. *)
Definition view (w : World) : Store :=
  match txn w with
  | Some s => s
  | None => disk w
  end.

(** [get_db()]: a fresh connection, no transaction open. *)
Definition get_db : M unit :=
  fun w => (Return tt,
            mkWorld (disk w) None (S (opened w)) (closed w) (stmts w) (faults w) (clock w)).

(** [db.close()]: an uncommitted transaction is dropped. *)
Definition db_close : M unit :=
  fun w => (Return tt,
            mkWorld (disk w) None (opened w) (S (closed w)) (stmts w) (faults w) (clock w)).

(** Sending one statement: it raises when the schedule says so. *)
Definition issue : M unit :=
  fun w =>
    let w' := mkWorld (disk w) (txn w) (opened w) (closed w) (S (stmts w))
                      (tl (faults w)) (clock w) in
    match faults w with
    | true :: _ => (Raise sqlite3_Error, w')
    | _ => (Return tt, w')
    end.

(** [db.execute(SELECT ...)] followed by [fetchone()] or [fetchall()]. *)
Definition db_select {A} (q : Store -> A) : M A :=
  issue ;; fun w => (Return (q (view w)), w).

(** [db.execute(INSERT ...)]: opens a transaction if none is open; the value
    is [cur.lastrowid]. *)
Definition db_insert (ins : Store -> Store * Z) : M Z :=
  issue ;;
  fun w =>
    let (s', rowid) := ins (view w) in
    (Return rowid,
     mkWorld (disk w) (Some s') (opened w) (closed w) (stmts w) (faults w) (clock w)).

(** [db.commit()] *)
Definition db_commit : M unit :=
  issue ;;
  fun w =>
    (Return tt,
     mkWorld (view w) None (opened w) (closed w) (stmts w) (faults w) (clock w)).

(** Building a record model, [Model( **dict(row))]: pydantic raises when the
    row does not fit the model, which the schedule decides. *)
Definition validate {A} (a : A) : M A :=
  fun w =>
    let w' := mkWorld (disk w) (txn w) (opened w) (closed w) (stmts w)
                      (tl (faults w)) (clock w) in
    match faults w with
    | true :: _ => (Raise pydantic_ValidationError, w')
    | _ => (Return a, w')
    end.

(** [[Model( **dict(r)) for r in rows]] *)
Fixpoint validate_all {A B} (f : A -> B) (rows : list A) : M (list B) :=
  match rows with
  | [] => ret []
  | r :: rest =>
      x <- validate (f r) ;;
      xs <- validate_all f rest ;;
      ret (x :: xs)
  end.

(** [datetime.now()] *)
Definition datetime_now : M datetime := fun w => (Return (clock w), w).

(** ** The statements *)

(** [SELECT customer_id, first_name, last_name, email, phone, loyalty_level
    FROM Customers] *)
Definition select_customers (s : Store) : list Customers.row :=
  tbl_Customers s.

(** [... FROM Customers WHERE customer_id = ?], [fetchone()] *)
Definition select_customer (customer_id : Z) (s : Store) : option Customers.row :=
  find (fun c => Customers.customer_id c =? customer_id) (tbl_Customers s).

(** [SELECT 1 FROM Customers WHERE customer_id = ?], [fetchone()] *)
Definition select_customer_exists (customer_id : Z) (s : Store) : option Z :=
  option_map (fun _ => 1) (select_customer customer_id s).

(** [SELECT subscription_id FROM Subscriptions WHERE customer_id = ?] *)
Definition select_subscription_ids (customer_id : Z) (s : Store) : list Z :=
  map Subscriptions.subscription_id
    (filter (fun sub => Subscriptions.customer_id sub =? customer_id)
       (tbl_Subscriptions s)).

(** [... LIMIT 1], [fetchone()] *)
Definition select_first_subscription (customer_id : Z) (s : Store) : option Z :=
  hd_error (select_subscription_ids customer_id s).

(** [x IN (...)] *)
Definition sql_in (x : Z) (l : list Z) : bool := existsb (Z.eqb x) l.

(** [SUM(...)]: NULL values are skipped, and the sum of no value is NULL. *)
Definition sql_sum {R : Runtime} (vals : list (option float)) : option float :=
  match flat_map (fun v => match v with Some x => [x] | None => [] end) vals with
  | [] => None
  | xs => Some (sqlite_sum xs)
  end.

(** [IFNULL(v, d)] *)
Definition ifnull (v : option float) (d : float) : float :=
  match v with
  | Some x => x
  | None => d
  end.

(** [Invoices inv LEFT JOIN Payments pay ON pay.invoice_id = inv.invoice_id
    AND pay.status = 'successful']: an invoice without such a payment is
    joined to NULL. *)
Definition join_payments (s : Store) (inv : Invoices.row)
  : list (Invoices.row * option Payments.row) :=
  match filter (fun pay => (Payments.invoice_id pay =? Invoices.invoice_id inv)
                           && (Payments.status pay =? "successful")%string)
               (tbl_Payments s) with
  | [] => [(inv, None)]
  | pays => map (fun pay => (inv, Some pay)) pays
  end.

(** The keys of a [GROUP BY], each once, in ascending order, which is the
    order in which SQLite returns the groups. *)
Fixpoint insert_key (k : Z) (keys : list Z) : list Z :=
  match keys with
  | [] => [k]
  | x :: rest =>
      if k <? x then k :: keys
      else if k =? x then keys
      else x :: insert_key k rest
  end.

Definition group_keys (keys : list Z) : list Z :=
  fold_right insert_key [] keys.

(** A row of the invoice statement of [get_billing_summary]. *)
Record invoice_paid := mkInvoicePaid {
  ip_invoice_id : Z;
  ip_amount : float;
  ip_due_date : string;
  ip_paid : float
}.

(** [FROM Invoices inv LEFT JOIN Payments pay ON ...
    WHERE inv.subscription_id IN
          (SELECT subscription_id FROM Subscriptions WHERE customer_id = ?)]
    over the invoices [invs]. *)
Definition joined_rows (customer_id : Z) (s : Store) (invs : list Invoices.row)
  : list (Invoices.row * option Payments.row) :=
  filter (fun r => sql_in (Invoices.subscription_id (fst r))
                          (select_subscription_ids customer_id s))
         (flat_map (join_payments s) invs).

(** The row of the group with key [k] under [GROUP BY inv.invoice_id], for
    the columns [inv.invoice_id, inv.amount, inv.due_date,
    IFNULL(SUM(pay.amount), 0) AS paid].  The bare columns of a group come
    from its first row. *)
Definition group_row {R : Runtime}
    (rows : list (Invoices.row * option Payments.row)) (k : Z)
  : list invoice_paid :=
  let grp := filter (fun r => Invoices.invoice_id (fst r) =? k) rows in
  match grp with
  | [] => []
  | r :: _ =>
      [mkInvoicePaid k (Invoices.amount (fst r)) (Invoices.due_date (fst r))
         (ifnull (sql_sum (map (fun r' => option_map Payments.amount (snd r')) grp))
            0%float)]
  end.

(** [SELECT inv.invoice_id, inv.amount, inv.due_date,
           IFNULL(SUM(pay.amount), 0) AS paid
    FROM Invoices inv LEFT JOIN Payments pay ON ...
    WHERE inv.subscription_id IN (...)
    GROUP BY inv.invoice_id], [fetchall()] *)
Definition select_invoices_paid {R : Runtime} (customer_id : Z) (s : Store)
  : list invoice_paid :=
  let rows := joined_rows customer_id s (tbl_Invoices s) in
  flat_map (group_row rows)
    (group_keys (map (fun r => Invoices.invoice_id (fst r)) rows)).

(** [ORDER BY opened_at DESC]: a stable insertion sort on the text column. *)
Fixpoint insert_desc (t : SupportTickets.row) (l : list SupportTickets.row)
  : list SupportTickets.row :=
  match l with
  | [] => [t]
  | x :: rest =>
      if (SupportTickets.opened_at x <=? SupportTickets.opened_at t)%string
      then t :: x :: rest
      else x :: insert_desc t rest
  end.

Definition order_by_opened_at_desc (l : list SupportTickets.row)
  : list SupportTickets.row :=
  fold_right insert_desc [] l.

(** [WHERE customer_id = ?] and, when [open_only], [AND status != 'closed'] *)
Definition ticket_selected (customer_id : Z) (open_only : bool)
    (t : SupportTickets.row) : bool :=
  (SupportTickets.customer_id t =? customer_id)
  && (if open_only then negb (SupportTickets.status t =? "closed")%string else true).

(** [SELECT ticket_id, customer_id, subject, description, status, priority,
    opened_at, closed_at FROM SupportTickets WHERE customer_id = ? ...
    ORDER BY opened_at DESC] *)
Definition select_tickets (customer_id : Z) (open_only : bool) (s : Store)
  : list SupportTickets.row :=
  order_by_opened_at_desc
    (filter (ticket_selected customer_id open_only) (tbl_SupportTickets s)).

(** [... FROM SupportTickets WHERE ticket_id = ?], [fetchone()] *)
Definition select_ticket (ticket_id : Z) (s : Store) : option SupportTickets.row :=
  find (fun t => SupportTickets.ticket_id t =? ticket_id) (tbl_SupportTickets s).

(** Modelled from the spec: the store's auto-increment of [ticket_id] (the
    declaration of the table is not in the sources): one more than the
    largest id in the table, 1 in an empty table. *)
Definition next_ticket_id (l : list SupportTickets.row) : Z :=
  match map SupportTickets.ticket_id l with
  | [] => 1
  | k :: rest => 1 + fold_left Z.max rest k
  end.

(** [INSERT INTO SupportTickets (customer_id, subscription_id, category,
    opened_at, closed_at, status, priority, subject, description, cs_agent)
    VALUES (?, ?, ?, ?, ?, ?, ?, ?, ?, ?)]; the second component is
    [lastrowid]. *)
Definition insert_ticket (customer_id : Z) (subscription_id : option Z)
    (category opened_at : string) (closed_at : option string)
    (status priority subject description cs_agent : string)
    (s : Store) : Store * Z :=
  let ticket_id := next_ticket_id (tbl_SupportTickets s) in
  (mkStore (tbl_Customers s) (tbl_Subscriptions s) (tbl_Invoices s) (tbl_Payments s)
     (tbl_SupportTickets s ++
        [SupportTickets.mk ticket_id customer_id subscription_id category
           opened_at closed_at status priority subject description cs_agent]),
   ticket_id).

(** ** The tool handlers *)

Definition list_customers : M (list Customer.t) :=
  get_db ;;
  rows <- db_select select_customers ;;
  db_close ;;
  validate_all Customer_of_row rows.

Definition get_customer (customer_id : Z) : M Customer.t :=
  get_db ;;
  row <- db_select (select_customer customer_id) ;;
  db_close ;;
  match row with
  | None => raise (ValueError (not_found_msg customer_id))
  | Some r => validate (Customer_of_row r)
  end.

Definition get_billing_summary {R : Runtime} (customer_id : Z)
  : M BillingSummary.t :=
  get_db ;;
  cust <- db_select (select_customer_exists customer_id) ;;
  match cust with
  | None =>
      db_close ;;
      raise (ValueError (not_found_msg customer_id))
  | Some _ =>
      inv_rows <- db_select (select_invoices_paid customer_id) ;;
      db_close ;;
      let invoices :=
        map (fun r =>
               InvoiceEntry.mk (ip_invoice_id r) (ip_amount r) (ip_paid r)
                 (py_max (PrimFloat.sub (ip_amount r) (ip_paid r)) 0%float)
                 (ip_due_date r))
            inv_rows in
      let total_due := py_sum (map InvoiceEntry.outstanding invoices) in
      validate (BillingSummary.mk customer_id total_due invoices)
  end.

Definition get_support_tickets (customer_id : Z) (open_only : bool)
  : M (list SupportTicket.t) :=
  get_db ;;
  rows <- db_select (select_tickets customer_id open_only) ;;
  db_close ;;
  validate_all SupportTicket_of_row rows.

Definition create_support_ticket (customer_id : Z)
    (subject description priority : string) : M SupportTicket.t :=
  if negb (existsb (String.eqb priority) ["low"; "medium"; "high"])
  then raise (ValueError priority_msg)
  else
    now <- datetime_now ;;
    let opened_at := strftime now in
    get_db ;;
    cust <- db_select (select_customer_exists customer_id) ;;
    match cust with
    | None =>
        db_close ;;
        raise (ValueError (not_found_msg customer_id))
    | Some _ =>
        subscription_id <- db_select (select_first_subscription customer_id) ;;
        ticket_id <- db_insert
          (insert_ticket customer_id subscription_id "general" opened_at None
             "open" priority subject description "AI_Agent") ;;
        db_commit ;;
        row <- db_select (select_ticket ticket_id) ;;
        db_close ;;
        match row with
        | None => raise TypeError
        | Some r => validate (SupportTicket_of_row r)
        end
    end.

(** The tools registered with the server, and the call of one of them. *)
Inductive tool_call :=
| call_list_customers
| call_get_customer (customer_id : Z)
| call_get_billing_summary (customer_id : Z)
| call_get_support_tickets (customer_id : Z) (open_only : bool)
| call_create_support_ticket (customer_id : Z) (subject description priority : string).

Inductive tool_value :=
| val_customers (l : list Customer.t)
| val_customer (c : Customer.t)
| val_billing (b : BillingSummary.t)
| val_tickets (l : list SupportTicket.t)
| val_ticket (t : SupportTicket.t).

Definition call_tool {R : Runtime} (c : tool_call) : M tool_value :=
  match c with
  | call_list_customers => l <- list_customers ;; ret (val_customers l)
  | call_get_customer cid => x <- get_customer cid ;; ret (val_customer x)
  | call_get_billing_summary cid => b <- get_billing_summary cid ;; ret (val_billing b)
  | call_get_support_tickets cid o => l <- get_support_tickets cid o ;; ret (val_tickets l)
  | call_create_support_ticket cid s d p =>
      t <- create_support_ticket cid s d p ;; ret (val_ticket t)
  end.

Definition is_lookup (c : tool_call) : bool :=
  match c with
  | call_create_support_ticket _ _ _ _ => false
  | _ => true
  end.

(** ** Properties of the store *)

(** A customer row with this id exists. *)
Definition has_customer (s : Store) (customer_id : Z) : Prop :=
  exists c, In c (tbl_Customers s) /\ Customers.customer_id c = customer_id.

(** Every ticket belongs to a customer of the store. *)
Definition tickets_belong (s : Store) : Prop :=
  forall t, In t (tbl_SupportTickets s) ->
            has_customer s (SupportTickets.customer_id t).

(** [invoice_id] is the key of [Invoices]. *)
Definition invoices_key (s : Store) : Prop :=
  NoDup (map Invoices.invoice_id (tbl_Invoices s)).

(** The values [priority] may take. *)
Definition allowed_priority (p : string) : Prop :=
  p = "low" \/ p = "medium" \/ p = "high".

(** The store with one more row at the end of [SupportTickets]. *)
Definition with_ticket (s : Store) (t : SupportTickets.row) : Store :=
  mkStore (tbl_Customers s) (tbl_Subscriptions s) (tbl_Invoices s) (tbl_Payments s)
    (tbl_SupportTickets s ++ [t]).

(** Connections a call opened and closed, between the worlds before and
    after it. *)
Definition opened_by (w w' : World) : nat := opened w' - opened w.
Definition closed_by (w w' : World) : nat := closed w' - closed w.
Definition issued_by (w w' : World) : nat := stmts w' - stmts w.

(** The invoices of a customer: those billed on a subscription the customer
    owns. *)
Definition customer_invoices (s : Store) (customer_id : Z) : list Invoices.row :=
  filter
    (fun inv =>
       existsb (fun sub => (Subscriptions.customer_id sub =? customer_id)
                           && (Subscriptions.subscription_id sub
                               =? Invoices.subscription_id inv))
               (tbl_Subscriptions s))
    (tbl_Invoices s).

(** The customer's invoices in ascending [invoice_id]. *)
Fixpoint insert_invoice (inv : Invoices.row) (l : list Invoices.row)
  : list Invoices.row :=
  match l with
  | [] => [inv]
  | x :: rest =>
      if Invoices.invoice_id inv <? Invoices.invoice_id x
      then inv :: l
      else x :: insert_invoice inv rest
  end.

Definition invoices_by_id (s : Store) (customer_id : Z) : list Invoices.row :=
  fold_right insert_invoice [] (customer_invoices s customer_id).

(** What was paid on an invoice: SQLite's sum of its payments with status
    ['successful'], 0 when it has none. *)
Definition paid_on {R : Runtime} (s : Store) (inv : Invoices.row) : float :=
  match filter (fun pay => (Payments.invoice_id pay =? Invoices.invoice_id inv)
                           && (Payments.status pay =? "successful")%string)
               (tbl_Payments s) with
  | [] => 0%float
  | pays => sqlite_sum (map Payments.amount pays)
  end.

(** The outstanding amount of an invoice, floored at 0. *)
Definition outstanding_on {R : Runtime} (s : Store) (inv : Invoices.row) : float :=
  py_max (PrimFloat.sub (Invoices.amount inv) (paid_on s inv)) 0%float.

(** The entry of the breakdown that belongs to an invoice. *)
Definition entry_of {R : Runtime} (s : Store) (inv : Invoices.row) : InvoiceEntry.t :=
  InvoiceEntry.mk (Invoices.invoice_id inv) (Invoices.amount inv) (paid_on s inv)
    (outstanding_on s inv) (Invoices.due_date inv).

(** A ticket counts as open unless its status is exactly ['closed']. *)
Definition is_open (t : SupportTickets.row) : bool :=
  negb (SupportTickets.status t =? "closed")%string.

(** The tickets stored for a customer. *)
Definition tickets_of (s : Store) (customer_id : Z) : list SupportTickets.row :=
  filter (fun t => SupportTickets.customer_id t =? customer_id)
    (tbl_SupportTickets s).

(** [a] was opened no earlier than [b], comparing the texts byte by byte. *)
Definition not_older (a b : SupportTicket.t) : Prop :=
  (SupportTicket.opened_at b <=? SupportTicket.opened_at a)%string = true.

(** The same on rows. *)
Definition row_not_older (a b : SupportTickets.row) : Prop :=
  (SupportTickets.opened_at b <=? SupportTickets.opened_at a)%string = true.

(** Every ticket of the sequence is [not_older] than all that follow it. *)
Definition newest_first (l : list SupportTicket.t) : Prop :=
  StronglySorted not_older l.

(** The first subscription of a customer in store order, if any. *)
Definition first_subscription (s : Store) (customer_id : Z) : option Z :=
  option_map Subscriptions.subscription_id
    (find (fun sub => Subscriptions.customer_id sub =? customer_id)
       (tbl_Subscriptions s)).

(** The world after a call that opened and closed its connection, issued
    [n] statements and left the store as [s]. *)
Definition after_call (w : World) (s : Store) (n : nat) : World :=
  mkWorld s None (S (opened w)) (S (closed w)) (n + stmts w) [] (clock w).

(** The row [create_support_ticket] inserts. *)
Definition new_ticket (w : World) (cid : Z) (subject description p : string)
  : SupportTickets.row :=
  SupportTickets.mk (next_ticket_id (tbl_SupportTickets (disk w))) cid
    (select_first_subscription cid (disk w)) "general" (strftime (clock w)) None
    "open" p subject description "AI_Agent".

(** The customer id and the priority a call names. *)
Definition call_customer (c : tool_call) : option Z :=
  match c with
  | call_list_customers => None
  | call_get_customer cid => Some cid
  | call_get_billing_summary cid => Some cid
  | call_get_support_tickets cid _ => Some cid
  | call_create_support_ticket cid _ _ _ => Some cid
  end.

Definition call_priority (c : tool_call) : option string :=
  match c with
  | call_create_support_ticket _ _ _ p => Some p
  | _ => None
  end.

(** ** A sample store *)

Definition sample_store : Store :=
  mkStore
    [Customers.mk 1 "Ada" "Lovelace" "ada@contoso.com" None "Gold";
     Customers.mk 2 "Bo" "Berg" "bo@contoso.com" (Some "555-0100") "Silver"]
    [Subscriptions.mk 10 1; Subscriptions.mk 11 1; Subscriptions.mk 20 2]
    [Invoices.mk 101 11 50%float "2025-02-28"; Invoices.mk 100 10 100%float "2025-01-31";
     Invoices.mk 200 20 70%float "2025-02-28"]
    [Payments.mk 100 40%float "successful"; Payments.mk 100 30%float "failed";
     Payments.mk 200 100%float "successful"; Payments.mk 200 10%float "successful"]
    [SupportTickets.mk 1 1 (Some 10) "general" "2025-01-01 10:00:00" None
       "open" "low" "Router" "Blinking" "agent_7";
     SupportTickets.mk 2 1 (Some 10) "billing" "2025-03-01 10:00:00"
       (Some "2025-03-02 08:30:00") "closed" "high" "Invoice" "Charged twice" "agent_7";
     SupportTickets.mk 3 1 None "general" "2025-02-01 10:00:00" None
       "Closed" "medium" "Speed" "Slow at night" "agent_9";
     SupportTickets.mk 4 2 (Some 20) "general" "2025-02-01 10:00:00" None
       "" "low" "Cable" "Loose" "agent_9"].

Definition sample_clock : datetime := mkDatetime 2026 11 3 9 5 7 250000.

(** A runtime whose sums add from left to right. *)
Definition sample_runtime : Runtime :=
  {| py_sum := fun l => fold_left PrimFloat.add l 0%float;
     sqlite_sum := fun l => fold_left PrimFloat.add l 0%float;
     py_sum_nil := eq_refl |}.

(** The sample store with one more ticket, filed under an id that has no
    row in [Customers]. *)
Definition orphan_store : Store :=
  with_ticket sample_store
    (SupportTickets.mk 5 7 None "general" "2025-04-01 10:00:00" None
       "open" "low" "Modem" "No power" "agent_7").

(** The sample world at another reading of the clock in the same second. *)
Definition same_second_world : World :=
  mkWorld sample_store None 0 0 0 [] (mkDatetime 2026 11 3 9 5 7 900000).

(** A store with two invoices whose amounts, 2^53 and 1, have no float for
    their sum. *)
Definition rounding_store : Store :=
  mkStore
    [Customers.mk 1 "Ada" "Lovelace" "ada@contoso.com" None "Gold"]
    [Subscriptions.mk 10 1]
    [Invoices.mk 100 10 9007199254740992%float "2025-01-31";
     Invoices.mk 101 10 1%float "2025-02-28"]
    []
    [].

(** A store whose [Invoices] holds two rows with the same [invoice_id]. *)
Definition twin_invoice_store : Store :=
  mkStore
    [Customers.mk 1 "Ada" "Lovelace" "ada@contoso.com" None "Gold"]
    [Subscriptions.mk 10 1]
    [Invoices.mk 100 10 100%float "2025-01-31";
     Invoices.mk 100 10 100%float "2025-01-31"]
    []
    [].

(** Nothing fails. *)
Definition sample_world : World :=
  mkWorld sample_store None 0 0 0 [] sample_clock.

(** The first statement fails. *)
Definition failing_world : World :=
  mkWorld sample_store None 0 0 0 [true] sample_clock.

(** The first statement succeeds and the first row read does not fit its
    record model. *)
Definition unfit_world : World :=
  mkWorld sample_store None 0 0 0 [false; true] sample_clock.

(** ** Further properties of the store and the clock *)

(** [customer_id] is the key of [Customers]. *)
Definition customers_key (s : Store) : Prop :=
  NoDup (map Customers.customer_id (tbl_Customers s)).

(** The store with other rows in [Payments], and in [SupportTickets]. *)
Definition with_payments (s : Store) (pays : list Payments.row) : Store :=
  mkStore (tbl_Customers s) (tbl_Subscriptions s) (tbl_Invoices s) pays
    (tbl_SupportTickets s).

Definition with_tickets (s : Store) (tickets : list SupportTickets.row) : Store :=
  mkStore (tbl_Customers s) (tbl_Subscriptions s) (tbl_Invoices s) (tbl_Payments s)
    tickets.

(** The world over another committed store. *)
Definition on_store (w : World) (s : Store) : World :=
  mkWorld s (txn w) (opened w) (closed w) (stmts w) (faults w) (clock w).

Definition is_successful (pay : Payments.row) : bool :=
  (Payments.status pay =? "successful")%string.

(** The fields of a [datetime] down to the second, most significant first;
    the comparison of two datetimes to the second, and their comparison,
    which also looks at the microseconds. *)
Definition datetime_fields (dt : datetime) : list Z :=
  [year dt; month dt; day dt; hour dt; minute dt; second dt].

Fixpoint lex_compare (a b : list Z) : comparison :=
  match a, b with
  | [], [] => Eq
  | [], _ :: _ => Lt
  | _ :: _, [] => Gt
  | x :: a', y :: b' =>
      match x ?= y with
      | Eq => lex_compare a' b'
      | c => c
      end
  end.

Definition seconds_compare (a b : datetime) : comparison :=
  lex_compare (datetime_fields a) (datetime_fields b).

Definition datetime_compare (a b : datetime) : comparison :=
  lex_compare (datetime_fields a ++ [microsecond a])
              (datetime_fields b ++ [microsecond b]).

(** ** [workshop_utils.validate_env] *)

(** The process around [validate_env]: [os.environ], and what was printed,
    one entry per [print], oldest first. *)
Record Process := mkProcess {
  environ : list (string * string);
  stdout : list string
}.

(** [os.getenv(var)] *)
Definition getenv (var : string) (env : list (string * string)) : option string :=
  option_map snd (find (fun kv => (fst kv =? var)%string) env).

(** The truth value of what [os.getenv] returns: [None] and the empty text
    are false. *)
Definition truthy (v : option string) : bool :=
  match v with
  | None => false
  | Some EmptyString => false
  | Some (String _ _) => true
  end.

Definition default_required_vars : list string :=
  ["AZURE_OPENAI_ENDPOINT"; "AZURE_OPENAI_API_KEY"; "AZURE_OPENAI_API_VERSION";
   "AZURE_OPENAI_CHAT_DEPLOYMENT_NAME"].

Definition missing_header : string :=
  "❌ Missing required environment variables:".

Definition missing_footer : string :=
  String "010"
    "📝 Please create a .env file with these variables or set them in your environment.".

Definition validated_line : string :=
  "✅ Setup validated! All required environment variables are set.".

(** [f"   - {var}"] *)
Definition missing_line (var : string) : string := "   - " ++ var.

Section ValidateEnv.

(** What [load_dotenv()] of the dotenv package makes of [os.environ]. *)
Variable load_dotenv : list (string * string) -> list (string * string).

(** [[var for var in required_vars if not os.getenv(var)]] *)
Definition missing_vars (required_vars : list string) (env : list (string * string))
  : list string :=
  filter (fun var => negb (truthy (getenv var env))) required_vars.

Definition validate_env (required_vars : option (list string)) (p : Process)
  : bool * Process :=
  let env := load_dotenv (environ p) in
  let required_vars :=
    match required_vars with
    | None => default_required_vars
    | Some vars => vars
    end in
  let missing := missing_vars required_vars env in
  match missing with
  | _ :: _ =>
      (false,
       mkProcess env
         (stdout p ++ [missing_header] ++ map missing_line missing ++ [missing_footer]))
  | [] => (true, mkProcess env (stdout p ++ [validated_line]))
  end.

End ValidateEnv.

(** A variable is set when [os.environ] holds a non-empty value for it. *)
Definition is_set (env : list (string * string)) (var : string) : Prop :=
  exists value, getenv var env = Some value /\ value <> "".

(** A dotenv loading that leaves [os.environ] as it is (no file), and a
    sample process. *)
Definition no_dotenv (env : list (string * string)) : list (string * string) := env.

Definition sample_process : Process :=
  mkProcess [("AZURE_OPENAI_ENDPOINT", "https://contoso.openai.azure.com");
             ("AZURE_OPENAI_API_KEY", "");
             ("CUSTOM_VAR", "1")]
            [].

(** The first four statements succeed and the fifth fails. *)
Definition late_failing_world : World :=
  mkWorld sample_store None 0 0 0 [false; false; false; false; true] sample_clock.

(** ** Running the primitives *)

Ltac unfold_handlers :=
  unfold call_tool, list_customers, get_customer, get_billing_summary,
    get_support_tickets, create_support_ticket, db_select, db_insert,
    db_commit, issue, db_close, get_db, datetime_now, validate, bind, ret,
    raise, view.

Ltac case_split :=
  repeat match goal with
         | |- context [match ?x with _ => _ end] =>
             lazymatch x with
             | context [match _ with _ => _ end] => fail
             | _ => destruct x eqn:?; simpl
             end
         end.

Lemma validate_all_quiet {A B} (f : A -> B) rows d t o c n k :
  validate_all f rows (mkWorld d t o c n [] k)
  = (Return (map f rows), mkWorld d t o c n [] k).
Proof.
  induction rows as [|r rows IH]; simpl; [reflexivity|].
  unfold bind, validate; simpl. rewrite IH. reflexivity.
Qed.

(** Validation touches nothing but the schedule, and either builds every
    model or raises. *)
Lemma validate_all_inv {A B} (f : A -> B) rows : forall w r w',
  validate_all f rows w = (r, w') ->
  disk w' = disk w /\ txn w' = txn w /\ opened w' = opened w
  /\ closed w' = closed w /\ stmts w' = stmts w /\ clock w' = clock w
  /\ (r = Return (map f rows) \/ r = Raise pydantic_ValidationError).
Proof.
  induction rows as [|x rows IH]; simpl; intros w r w' H.
  - inversion H; subst. repeat split; auto.
  - unfold bind, validate in H.
    destruct (faults w) as [|[|] fs]; simpl in H;
      try (inversion H; subst; simpl; repeat split; auto; fail);
      destruct (validate_all f rows _) as [[l|e] w1] eqn:E;
      apply IH in E; simpl in E;
      destruct E as [E1 [E2 [E3 [E4 [E5 [E6 E7]]]]]];
      inversion H; subst;
      (repeat split; try assumption);
      destruct E7 as [E7|E7]; inversion E7; subst; auto.
Qed.

Ltac use_validate_all :=
  repeat match goal with
         | H : validate_all _ _ _ = (_, _) |- _ =>
             apply validate_all_inv in H; simpl in H;
             destruct H as (?Hd & ?Ht & ?Ho & ?Hc & ?Hn & ?Hk & ?Hr)
         end;
  repeat match goal with
         | H : disk _ = _ |- _ => rewrite H in *; clear H
         end.

Lemma select_customer_absent s cid :
  ~ has_customer s cid -> select_customer cid s = None.
Proof.
  unfold has_customer, select_customer. intros H.
  destruct (find _ _) as [c|] eqn:E; [|reflexivity].
  apply find_some in E. destruct E as [Hin Heq].
  exfalso. apply H. exists c. split; [assumption|]. lia.
Qed.

Lemma select_customer_present s cid :
  has_customer s cid ->
  exists c, select_customer cid s = Some c /\ In c (tbl_Customers s)
            /\ Customers.customer_id c = cid.
Proof.
  unfold has_customer, select_customer. intros [c [Hin Heq]].
  destruct (find _ _) as [c'|] eqn:E.
  - apply find_some in E. exists c'. intuition lia.
  - exfalso. apply (find_none _ _ E) in Hin. lia.
Qed.

Lemma priority_check p :
  existsb (String.eqb p) ["low"; "medium"; "high"] = true <-> allowed_priority p.
Proof.
  unfold allowed_priority. simpl.
  rewrite !orb_true_iff, !String.eqb_eq. intuition discriminate.
Qed.

Lemma bad_priority_run cid subject description p w :
  ~ allowed_priority p ->
  create_support_ticket cid subject description p w = (Raise ValidationError, w).
Proof.
  intros H. unfold create_support_ticket.
  destruct (existsb _ _) eqn:E.
  - exfalso. apply H, priority_check, E.
  - reflexivity.
Qed.

Lemma not_found_is_not_validation cid : NotFound cid <> ValidationError.
Proof.
  unfold NotFound, ValidationError, not_found_msg, priority_msg. simpl.
  discriminate.
Qed.

(** ** Bad priority: C3, C10 *)

(** C3: a call of [create_support_ticket] whose priority is none of
    ['low'], ['medium'], ['high'] raises the validation error and leaves the
    world as it was: the store is unchanged, no row is inserted, no
    statement is issued and no connection is opened. *)
Theorem create_support_ticket_rejects_priority :
  forall cid subject description p w,
    ~ allowed_priority p ->
    let (r, w') := create_support_ticket cid subject description p w in
    r = Raise ValidationError /\ w' = w /\
    disk w' = disk w /\ issued_by w w' = 0%nat /\ opened_by w w' = 0%nat.
Proof.
  intros cid subject description p w H.
  rewrite bad_priority_run by assumption.
  unfold issued_by, opened_by. repeat split; lia.
Qed.

Lemma create_support_ticket_rejects_priority_witness :
  ~ allowed_priority "urgent" /\
  let (r, w') := create_support_ticket 1 "x" "y" "urgent" sample_world in
  r = Raise ValidationError /\ w' = sample_world /\
  disk w' = disk sample_world /\ issued_by sample_world w' = 0%nat
  /\ opened_by sample_world w' = 0%nat.
Proof.
  assert (H : ~ allowed_priority "urgent")
    by (unfold allowed_priority; intuition discriminate).
  split; [exact H|].
  exact (create_support_ticket_rejects_priority 1 "x" "y" "urgent" sample_world H).
Defined.

(** C10: in [create_support_ticket] the priority check comes before the
    customer check: with a priority outside the allowed three the call raises
    the validation error whether or not the customer exists, never the
    not-found error, and opens no connection. *)
Theorem priority_check_precedes_customer_check :
  forall cid subject description p w,
    ~ allowed_priority p ->
    fst (create_support_ticket cid subject description p w) = Raise ValidationError
    /\ (~ has_customer (disk w) cid ->
        fst (create_support_ticket cid subject description p w) = Raise ValidationError)
    /\ fst (create_support_ticket cid subject description p w) <> Raise (NotFound cid)
    /\ opened (snd (create_support_ticket cid subject description p w)) = opened w
    /\ stmts (snd (create_support_ticket cid subject description p w)) = stmts w.
Proof.
  intros cid subject description p w H.
  rewrite bad_priority_run by assumption. simpl.
  repeat split; try reflexivity.
  intros E. apply (not_found_is_not_validation cid). congruence.
Qed.

Lemma priority_check_precedes_customer_check_witness :
  ~ allowed_priority "urgent" /\ ~ has_customer (disk sample_world) 7 /\
  fst (create_support_ticket 7 "x" "y" "urgent" sample_world) = Raise ValidationError.
Proof.
  assert (H : ~ allowed_priority "urgent")
    by (unfold allowed_priority; intuition discriminate).
  assert (N : ~ has_customer (disk sample_world) 7).
  { intros [c [Hin Hc]]. simpl in Hin.
    destruct Hin as [<-|[<-|[]]]; discriminate Hc. }
  split; [exact H|]. split; [exact N|].
  exact (proj1 (proj2
    (priority_check_precedes_customer_check 7 "x" "y" "urgent" sample_world H)) N).
Defined.

(** ** Runs in which nothing fails

    [faults w = []]: no statement raises and every row fits its record
    model. *)

Lemma list_customers_run w :
  faults w = [] ->
  list_customers w =
  (Return (map Customer_of_row (tbl_Customers (disk w))), after_call w (disk w) 1).
Proof.
  destruct w; simpl; intros ->. unfold_handlers; simpl.
  rewrite validate_all_quiet. reflexivity.
Qed.

Lemma get_customer_run cid w :
  faults w = [] ->
  get_customer cid w =
  (match select_customer cid (disk w) with
   | None => Raise (NotFound cid)
   | Some r => Return (Customer_of_row r)
   end, after_call w (disk w) 1).
Proof.
  destruct w; simpl; intros ->. unfold_handlers; simpl.
  destruct (select_customer cid disk0); reflexivity.
Qed.

Lemma get_billing_summary_run {R : Runtime} cid w :
  faults w = [] ->
  get_billing_summary cid w =
  match select_customer cid (disk w) with
  | None => (Raise (NotFound cid), after_call w (disk w) 1)
  | Some _ =>
      let invoices :=
        map (fun r =>
               InvoiceEntry.mk (ip_invoice_id r) (ip_amount r) (ip_paid r)
                 (py_max (PrimFloat.sub (ip_amount r) (ip_paid r)) 0%float)
                 (ip_due_date r))
            (select_invoices_paid cid (disk w)) in
      (Return (BillingSummary.mk cid
                 (py_sum (map InvoiceEntry.outstanding invoices))
                 invoices),
       after_call w (disk w) 2)
  end.
Proof.
  destruct w; simpl; intros ->. unfold_handlers; simpl.
  unfold select_customer_exists.
  destruct (select_customer cid disk0); reflexivity.
Qed.

Lemma get_support_tickets_run cid open_only w :
  faults w = [] ->
  get_support_tickets cid open_only w =
  (Return (map SupportTicket_of_row (select_tickets cid open_only (disk w))),
   after_call w (disk w) 1).
Proof.
  destruct w; simpl; intros ->. unfold_handlers; simpl.
  rewrite validate_all_quiet. reflexivity.
Qed.

Lemma create_support_ticket_run cid subject description p w :
  faults w = [] ->
  allowed_priority p ->
  create_support_ticket cid subject description p w =
  match select_customer cid (disk w) with
  | None => (Raise (NotFound cid), after_call w (disk w) 1)
  | Some _ =>
      let t := new_ticket w cid subject description p in
      (match select_ticket (SupportTickets.ticket_id t) (with_ticket (disk w) t) with
       | None => Raise TypeError
       | Some r => Return (SupportTicket_of_row r)
       end,
       after_call w (with_ticket (disk w) t) 5)
  end.
Proof.
  intros F P. apply priority_check in P.
  unfold create_support_ticket. rewrite P. simpl.
  destruct w; simpl in *; subst. unfold_handlers; simpl.
  unfold select_customer_exists.
  destruct (select_customer cid disk0); simpl; [|reflexivity].
  unfold new_ticket, with_ticket; simpl.
  destruct (select_ticket _ _); reflexivity.
Qed.

(** ** The inserted row is the one read back *)

Lemma fold_left_max_ge rest : forall k x,
  x = k \/ In x rest -> x <= fold_left Z.max rest k.
Proof.
  induction rest as [|y rest IH]; simpl; intros k x [->|H]; try lia; try contradiction.
  - specialize (IH (Z.max k y) (Z.max k y) (or_introl eq_refl)). lia.
  - destruct H as [->|H].
    + specialize (IH (Z.max k x) (Z.max k x) (or_introl eq_refl)). lia.
    + apply IH. right. assumption.
Qed.

Lemma next_ticket_id_fresh l t :
  In t l -> SupportTickets.ticket_id t < next_ticket_id l.
Proof.
  intros H. apply (in_map SupportTickets.ticket_id) in H.
  unfold next_ticket_id. destruct (map SupportTickets.ticket_id l) as [|k rest].
  - contradiction.
  - assert (SupportTickets.ticket_id t <= fold_left Z.max rest k)
      by (apply fold_left_max_ge; destruct H; auto).
    lia.
Qed.

Lemma select_ticket_inserted s t :
  SupportTickets.ticket_id t = next_ticket_id (tbl_SupportTickets s) ->
  select_ticket (SupportTickets.ticket_id t) (with_ticket s t) = Some t.
Proof.
  intros E. unfold select_ticket, with_ticket. simpl.
  assert (F : forall l, (forall x, In x l -> SupportTickets.ticket_id x
                                            <> SupportTickets.ticket_id t) ->
                        find (fun x => SupportTickets.ticket_id x
                                       =? SupportTickets.ticket_id t) (l ++ [t])
                        = Some t).
  { induction l as [|x l IH]; simpl; intros Hl.
    - rewrite Z.eqb_refl. reflexivity.
    - destruct (Z.eqb_spec (SupportTickets.ticket_id x) (SupportTickets.ticket_id t)) as [e|_].
      + exfalso. apply (Hl x); auto.
      + apply IH. intros y Hy. apply Hl. auto. }
  apply F. intros x Hx. apply next_ticket_id_fresh in Hx. lia.
Qed.

Lemma select_first_subscription_first s cid :
  select_first_subscription cid s = first_subscription s cid.
Proof.
  unfold select_first_subscription, select_subscription_ids, first_subscription.
  induction (tbl_Subscriptions s) as [|sub l IH]; simpl; [reflexivity|].
  destruct (Subscriptions.customer_id sub =? cid); simpl; auto.
Qed.

(** ** The timestamp *)

Lemma is_digit_digit n : is_digit (digit n) = true.
Proof.
  unfold digit.
  assert (B : 0 <= n mod 10 < 10) by (apply Z.mod_pos_bound; lia).
  remember (n mod 10) as d eqn:E. clear E.
  assert (C : d = 0 \/ d = 1 \/ d = 2 \/ d = 3 \/ d = 4 \/ d = 5 \/ d = 6
              \/ d = 7 \/ d = 8 \/ d = 9) by lia.
  repeat (destruct C as [->|C]; [reflexivity|]). subst. reflexivity.
Qed.

Lemma strftime_is_timestamp dt : is_timestamp (strftime dt) = true.
Proof.
  unfold strftime, pad4, pad2, is_timestamp. simpl.
  rewrite !is_digit_digit. reflexivity.
Qed.

(** ** Unknown customers: C6 *)

Lemma no_tickets_of_unknown s cid open_only :
  tickets_belong s -> ~ has_customer s cid ->
  select_tickets cid open_only s = [].
Proof.
  intros B N. unfold select_tickets.
  replace (filter _ _) with (@nil SupportTickets.row); [reflexivity|].
  symmetry. unfold tickets_belong in B.
  induction (tbl_SupportTickets s) as [|t l IH]; simpl.
  - reflexivity.
  - unfold ticket_selected at 1.
    destruct (Z.eqb_spec (SupportTickets.customer_id t) cid) as [e|_]; simpl.
    + exfalso. apply N. rewrite <- e. apply B. simpl. auto.
    + apply IH. intros x Hx. apply B. simpl. auto.
Qed.

Lemma sample_has_no_customer_7 : ~ has_customer sample_store 7.
Proof.
  intros [c [Hin Hc]]. simpl in Hin.
  destruct Hin as [<-|[<-|[]]]; discriminate Hc.
Qed.

Lemma sample_has_customer_1 : has_customer sample_store 1.
Proof.
  exists (Customers.mk 1 "Ada" "Lovelace" "ada@contoso.com" None "Gold").
  split; [left; reflexivity|reflexivity].
Qed.

Lemma sample_tickets_belong : tickets_belong sample_store.
Proof.
  intros t Hin. simpl in Hin.
  destruct Hin as [<-|[<-|[<-|[<-|[]]]]]; simpl.
  1-3: exists (Customers.mk 1 "Ada" "Lovelace" "ada@contoso.com" None "Gold");
    simpl; auto.
  exists (Customers.mk 2 "Bo" "Berg" "bo@contoso.com" (Some "555-0100") "Silver");
    simpl; auto.
Qed.

(** C6: when nothing fails, a call of [create_support_ticket] with an
    allowed priority and a customer id without a row raises the not-found
    error that names the id, inserts nothing (the store after the call is
    the store before it) and has closed the connection it opened. *)
Theorem create_support_ticket_unknown_customer :
  forall cid subject description p w,
    faults w = [] ->
    allowed_priority p ->
    ~ has_customer (disk w) cid ->
    let (r, w') := create_support_ticket cid subject description p w in
    r = Raise (NotFound cid)
    /\ disk w' = disk w
    /\ tbl_SupportTickets (disk w') = tbl_SupportTickets (disk w)
    /\ txn w' = None
    /\ opened_by w w' = 1%nat /\ closed_by w w' = 1%nat.
Proof.
  intros cid subject description p w F P N.
  rewrite create_support_ticket_run by assumption.
  rewrite (select_customer_absent _ _ N).
  unfold opened_by, closed_by, after_call. cbn [opened closed disk txn].
  repeat split; lia || reflexivity.
Qed.

Lemma create_support_ticket_unknown_customer_witness :
  let (r, w') := create_support_ticket 7 "Wifi down" "No signal" "high" sample_world in
  r = Raise (NotFound 7)
  /\ disk w' = disk sample_world
  /\ tbl_SupportTickets (disk w') = tbl_SupportTickets (disk sample_world)
  /\ txn w' = None
  /\ opened_by sample_world w' = 1%nat /\ closed_by sample_world w' = 1%nat.
Proof.
  apply (create_support_ticket_unknown_customer 7 "Wifi down" "No signal" "high"
           sample_world eq_refl).
  - right; right; reflexivity.
  - exact sample_has_no_customer_7.
Defined.

(** ** The tool calls keep the properties of the store *)

Lemma has_customer_with_ticket s t cid :
  has_customer s cid -> has_customer (with_ticket s t) cid.
Proof.
  intros H. exact H.
Qed.

Lemma tickets_belong_with_ticket s t :
  tickets_belong s -> has_customer s (SupportTickets.customer_id t) ->
  tickets_belong (with_ticket s t).
Proof.
  intros B H x Hx. unfold with_ticket in Hx. simpl in Hx.
  apply in_app_or in Hx. destruct Hx as [Hx|[<-|[]]].
  - apply has_customer_with_ticket, B, Hx.
  - apply has_customer_with_ticket, H.
Qed.

(** Whatever fails, a tool call leaves a store in which every ticket belongs
    to a customer and [invoice_id] is a key. *)
Lemma call_tool_keeps_store {R : Runtime} c w :
  tickets_belong (disk w) -> invoices_key (disk w) ->
  tickets_belong (disk (snd (call_tool c w)))
  /\ invoices_key (disk (snd (call_tool c w))).
Proof.
  intros B K. destruct w as [d t o cl n f k]. simpl in B, K.
  destruct c; unfold_handlers; simpl; unfold select_customer_exists.
  1-4: case_split; use_validate_all; split; assumption.
  case_split; split; try assumption; try exact K.
  all: match goal with
       | H : option_map _ (select_customer ?c ?s) = Some _
         |- tickets_belong (mkStore _ _ _ _ (_ ++ [?row])) =>
           change (tickets_belong (with_ticket s row));
           apply tickets_belong_with_ticket; [exact B|]; simpl;
           destruct (select_customer c s) as [r0|] eqn:E; [|discriminate H];
           apply find_some in E; destruct E as [Hin Hid];
           exists r0; split; [exact Hin|lia]
       end.
Qed.

(** ** The created ticket: C4 *)

(** C4: when nothing fails, a call of [create_support_ticket] with an
    allowed priority for a customer of the store succeeds: exactly one row is
    appended to [SupportTickets], and the returned ticket is that row read
    back.  Row and ticket have status ['open'], no [closed_at], the priority
    of the call (one of the allowed three) and an [opened_at] of the shape
    [YYYY-MM-DD HH:MM:SS]; the row has category ['general'] and as
    [subscription_id] the customer's first subscription in store order, or
    NULL when the customer has none. *)
Theorem created_ticket_is_open :
  forall cid subject description p w,
    faults w = [] ->
    allowed_priority p ->
    has_customer (disk w) cid ->
    valid_datetime (clock w) ->
    exists row,
      let (r, w') := create_support_ticket cid subject description p w in
      let t := SupportTicket_of_row row in
      r = Return t
      /\ disk w' = with_ticket (disk w) row
      /\ (SupportTickets.status row = "open" /\ SupportTicket.status t = "open")
      /\ (SupportTickets.closed_at row = None /\ SupportTicket.closed_at t = None)
      /\ (SupportTickets.priority row = p /\ SupportTicket.priority t = p
          /\ allowed_priority (SupportTicket.priority t))
      /\ SupportTickets.category row = "general"
      /\ SupportTickets.subscription_id row = first_subscription (disk w) cid
      /\ (SupportTickets.opened_at row = strftime (clock w)
          /\ SupportTicket.opened_at t = strftime (clock w)
          /\ is_timestamp (SupportTicket.opened_at t) = true)
      /\ (SupportTickets.customer_id row = cid /\ SupportTicket.customer_id t = cid)
      /\ SupportTicket.subject t = subject
      /\ SupportTicket.description t = description.
Proof.
  intros cid subject description p w F P H V.
  exists (new_ticket w cid subject description p).
  rewrite create_support_ticket_run by assumption.
  destruct (select_customer_present _ _ H) as [c [E _]]. rewrite E.
  cbv zeta. rewrite select_ticket_inserted by reflexivity.
  unfold new_ticket, after_call. cbn [disk SupportTicket_of_row
    SupportTickets.status SupportTickets.closed_at SupportTickets.priority
    SupportTickets.category SupportTickets.subscription_id
    SupportTickets.opened_at SupportTickets.customer_id
    SupportTicket.status SupportTicket.closed_at SupportTicket.priority
    SupportTicket.opened_at SupportTicket.customer_id SupportTicket.subject
    SupportTicket.description SupportTickets.subject SupportTickets.description].
  repeat split; try assumption.
  - apply select_first_subscription_first.
  - apply strftime_is_timestamp.
Qed.

Lemma sample_clock_valid : valid_datetime sample_clock.
Proof.
  unfold valid_datetime, sample_clock. simpl. lia.
Qed.

Lemma created_ticket_is_open_witness :
  exists row,
    fst (create_support_ticket 1 "Wifi down" "No signal" "high" sample_world)
    = Return (SupportTicket_of_row row)
    /\ SupportTickets.status row = "open"
    /\ SupportTickets.closed_at row = None
    /\ SupportTickets.priority row = "high"
    /\ SupportTickets.subscription_id row = Some 10
    /\ SupportTickets.opened_at row = "2026-11-03 09:05:07".
Proof.
  destruct (created_ticket_is_open 1 "Wifi down" "No signal" "high" sample_world
              eq_refl (or_intror (or_intror eq_refl)) sample_has_customer_1
              sample_clock_valid) as [row H].
  exists row.
  destruct (create_support_ticket 1 "Wifi down" "No signal" "high" sample_world)
    as [r w'].
  destruct H as [A [_ [[B _] [[C _] [[D _] [_ [S [[O _] _]]]]]]]].
  repeat split; assumption.
Defined.

(** ** What a call does to the store and to its connection: C8, C7 *)

(** C8: whatever the store, the arguments and the steps that fail, the
    four lookups leave the committed store as it was, whether they return
    or raise; [create_support_ticket] leaves it as it was or appends one row
    to [SupportTickets] and changes nothing else. *)
Theorem only_create_mutates :
  forall (R : Runtime) c w,
    let w' := snd (call_tool c w) in
    if is_lookup c
    then disk w' = disk w
    else disk w' = disk w \/ exists row, disk w' = with_ticket (disk w) row.
Proof.
  intros R c w. destruct w as [d t o cl n f k].
  destruct c; unfold_handlers; simpl; unfold select_customer_exists.
  - case_split; use_validate_all; reflexivity.
  - case_split; reflexivity.
  - case_split; reflexivity.
  - case_split; use_validate_all; reflexivity.
  - case_split; try (left; reflexivity);
      right; eexists; unfold with_ticket; reflexivity.
Qed.

Ltac settle_connection :=
  use_validate_all;
  unfold opened_by, closed_by; cbn [opened closed];
  repeat split; intros; try congruence; try discriminate; try lia;
  repeat match goal with
         | H : _ \/ _ |- _ => destruct H
         end; try congruence; try discriminate; lia.

(** C7, as the handlers have it: a call opens at most one connection; on
    every outcome but a failing statement (it returns, the customer is not
    found, the priority is bad, a row fails the validation of its record
    model) every connection it opened has been closed; when a statement
    raises, the error leaves the handler with the connection still open. *)
Theorem connection_closed_unless_statement_raises :
  forall (R : Runtime) c w,
    let (r, w') := call_tool c w in
    (r <> Raise sqlite3_Error -> closed_by w w' = opened_by w w')
    /\ (r = Raise pydantic_ValidationError ->
        opened_by w w' = 1%nat /\ closed_by w w' = 1%nat)
    /\ (r = Raise sqlite3_Error -> opened_by w w' = 1%nat /\ closed_by w w' = 0%nat)
    /\ (opened_by w w' <= 1)%nat.
Proof.
  intros R c w. destruct w as [d t o cl n f k].
  destruct c; unfold_handlers; simpl; unfold select_customer_exists.
  - case_split; settle_connection.
  - case_split; settle_connection.
  - case_split; settle_connection.
  - case_split; settle_connection.
  - case_split; settle_connection.
Qed.

(** C7 as stated fails: [list_customers] whose statement raises leaves its
    connection open. *)
Lemma connection_left_open_on_statement_failure :
  (let (r, w') := call_tool (R := sample_runtime) call_list_customers failing_world in
   r = Raise sqlite3_Error
   /\ opened_by failing_world w' = 1%nat /\ closed_by failing_world w' = 0%nat)
  /\ ~ (forall (R : Runtime) c w,
          let (r, w') := call_tool c w in closed_by w w' = opened_by w w').
Proof.
  split.
  - vm_compute. repeat split.
  - intros H. specialize (H sample_runtime call_list_customers failing_world).
    vm_compute in H. discriminate H.
Qed.

Lemma connection_closed_unless_statement_raises_witness :
  closed_by sample_world (snd (call_tool (R := sample_runtime) call_list_customers sample_world))
  = opened_by sample_world (snd (call_tool (R := sample_runtime) call_list_customers sample_world))
  /\ (fst (call_tool (R := sample_runtime) call_list_customers unfit_world) = Raise pydantic_ValidationError
      /\ opened_by unfit_world (snd (call_tool (R := sample_runtime) call_list_customers unfit_world)) = 1%nat
      /\ closed_by unfit_world (snd (call_tool (R := sample_runtime) call_list_customers unfit_world)) = 1%nat)
  /\ (fst (call_tool (R := sample_runtime) call_list_customers failing_world) = Raise sqlite3_Error
      /\ opened_by failing_world (snd (call_tool (R := sample_runtime) call_list_customers failing_world)) = 1%nat
      /\ closed_by failing_world (snd (call_tool (R := sample_runtime) call_list_customers failing_world)) = 0%nat).
Proof.
  pose proof (connection_closed_unless_statement_raises sample_runtime
                call_list_customers sample_world) as A.
  pose proof (connection_closed_unless_statement_raises sample_runtime
                call_list_customers unfit_world) as U.
  pose proof (connection_closed_unless_statement_raises sample_runtime
                call_list_customers failing_world) as B.
  destruct (call_tool (R := sample_runtime) call_list_customers sample_world) as [r w'] eqn:E.
  destruct (call_tool (R := sample_runtime) call_list_customers unfit_world) as [r1 w1] eqn:E1.
  destruct (call_tool (R := sample_runtime) call_list_customers failing_world) as [r2 w2] eqn:E2.
  vm_compute in E. vm_compute in E1. vm_compute in E2.
  injection E as <- <-. injection E1 as <- <-. injection E2 as <- <-.
  destruct A as [A _]. destruct U as [_ [U _]]. destruct B as [_ [_ [B _]]].
  split; [apply A; discriminate|].
  split; (split; [reflexivity|]); [apply U|apply B]; reflexivity.
Defined.

(** ** What a failure tells the caller: C9 *)

Lemma str_inj a b : str a = str b -> a = b.
Proof.
  unfold str. intros H. apply DecimalZ.to_int_inj.
  assert (N : forall z, Z.to_int z <> Decimal.Pos Decimal.Nil
                        /\ Z.to_int z <> Decimal.Neg Decimal.Nil).
  { intros z. destruct z; simpl; split; try discriminate;
      intros E; injection E; apply DecimalPos.Unsigned.to_uint_nonnil. }
  destruct (N a) as [A1 A2]. destruct (N b) as [B1 B2].
  pose proof (NilZero.isi _ A1 A2) as Ia.
  pose proof (NilZero.isi _ B1 B2) as Ib.
  rewrite H in Ia. rewrite Ia in Ib. congruence.
Qed.

Lemma list_ascii_of_append (x : string) : forall y : string,
  list_ascii_of_string (x ++ y)%string
  = (list_ascii_of_string x ++ list_ascii_of_string y)%list.
Proof.
  induction x; simpl; intros; [reflexivity | f_equal; auto].
Qed.

Lemma append_same_tail (t a b : string) : (a ++ t = b ++ t)%string -> a = b.
Proof.
  intros H. apply (f_equal list_ascii_of_string) in H.
  rewrite !list_ascii_of_append in H. apply app_inv_tail in H.
  rewrite <- (string_of_list_ascii_of_string a).
  rewrite <- (string_of_list_ascii_of_string b).
  congruence.
Qed.

Lemma not_found_msg_inj a b : not_found_msg a = not_found_msg b -> a = b.
Proof.
  unfold not_found_msg. simpl. intros H. injection H as H.
  apply append_same_tail in H. apply str_inj, H.
Qed.

Lemma select_customer_none s cid :
  select_customer cid s = None -> ~ has_customer s cid.
Proof.
  intros E H. destruct (select_customer_present _ _ H) as [c [E' _]]. congruence.
Qed.

Lemma select_ticket_new s cid sub cat o cl st p subj desc ag :
  select_ticket (next_ticket_id (tbl_SupportTickets s))
    (mkStore (tbl_Customers s) (tbl_Subscriptions s) (tbl_Invoices s)
       (tbl_Payments s)
       (tbl_SupportTickets s ++
          [SupportTickets.mk (next_ticket_id (tbl_SupportTickets s)) cid sub cat
             o cl st p subj desc ag]))
  = Some (SupportTickets.mk (next_ticket_id (tbl_SupportTickets s)) cid sub cat
            o cl st p subj desc ag).
Proof.
  exact (select_ticket_inserted s
           (SupportTickets.mk (next_ticket_id (tbl_SupportTickets s)) cid sub cat
              o cl st p subj desc ag) eq_refl).
Qed.

Arguments select_ticket : simpl never.

Ltac validation_case :=
  use_validate_all;
  match goal with
  | H : Raise _ = Return _ \/ Raise _ = Raise pydantic_ValidationError |- _ =>
      destruct H as [H|H]; [discriminate H|];
      injection H as ->; right; left; reflexivity
  end.

Ltac not_found_case cid :=
  right; right; left; exists cid; repeat split; apply select_customer_none;
  first [ assumption
        | match goal with
          | H : option_map _ (select_customer ?c ?d) = None |- _ =>
              destruct (select_customer c d); [discriminate H | reflexivity]
          end ].

(** C9, as the handlers have it: a failure raised by a tool call is a
    statement failure of the store, a validation failure of a record model,
    the not-found error naming the customer id of the call (which has no
    row), or the bad-priority error of a [create_support_ticket] whose
    priority is not allowed.  The not-found message determines the id, and
    differs from the bad-priority message, which is one fixed text whatever
    the priority was. *)
Theorem failures_name_their_kind :
  (forall (R : Runtime) c w,
      match fst (call_tool c w) with
      | Return _ => True
      | Raise e =>
          e = sqlite3_Error
          \/ e = pydantic_ValidationError
          \/ (exists cid, call_customer c = Some cid
                          /\ ~ has_customer (disk w) cid /\ e = NotFound cid)
          \/ (exists p, call_priority c = Some p
                        /\ ~ allowed_priority p /\ e = ValueError priority_msg)
      end)
  /\ (forall a b, NotFound a = NotFound b -> a = b)
  /\ (forall a, NotFound a <> ValidationError)
  /\ (forall a, NotFound a <> sqlite3_Error)
  /\ ValidationError <> sqlite3_Error.
Proof.
  split; [|split; [|split; [|split]]].
  - intros R c w. destruct w as [d t o cl n f k].
    destruct c; unfold call_tool, bind.
    + unfold_handlers; simpl; case_split; auto; validation_case.
    + unfold_handlers; simpl; case_split; auto; not_found_case customer_id.
    + unfold_handlers; simpl; unfold select_customer_exists; case_split; auto;
        not_found_case customer_id.
    + unfold_handlers; simpl; case_split; auto; validation_case.
    + unfold create_support_ticket.
      destruct (existsb _ _) eqn:P; simpl.
      * unfold_handlers; simpl; unfold select_customer_exists.
        case_split; auto; try not_found_case customer_id.
        all: match goal with
             | H : select_ticket _ _ = None |- _ =>
                 rewrite select_ticket_new in H; discriminate H
             end.
      * right; right; right. exists priority. repeat split.
        intros A. apply priority_check in A. congruence.
  - intros a b H. apply not_found_msg_inj. unfold NotFound in H. congruence.
  - apply not_found_is_not_validation.
  - intros a. discriminate.
  - discriminate.
Qed.

(** C9 as stated fails: the bad-priority error does not carry the priority;
    two calls that differ in their bad priority raise the same error. *)
Lemma bad_priority_error_omits_value :
  (fst (create_support_ticket 1 "x" "y" "urgent" sample_world)
   = Raise (ValueError "Priority must be 'low', 'medium', or 'high'")
   /\ fst (create_support_ticket 1 "x" "y" "URGENT" sample_world)
      = Raise (ValueError "Priority must be 'low', 'medium', or 'high'"))
  /\ ~ (forall cid subject description p1 p2 w,
          ~ allowed_priority p1 -> ~ allowed_priority p2 ->
          fst (create_support_ticket cid subject description p1 w)
          = fst (create_support_ticket cid subject description p2 w) ->
          p1 = p2).
Proof.
  split; [split; reflexivity|].
  intros H.
  assert (A : ~ allowed_priority "urgent")
    by (unfold allowed_priority; intuition discriminate).
  assert (B : ~ allowed_priority "URGENT")
    by (unfold allowed_priority; intuition discriminate).
  specialize (H 1 "x" "y" "urgent" "URGENT" sample_world A B eq_refl).
  discriminate H.
Qed.

Lemma failures_name_their_kind_witness :
  fst (call_tool (R := sample_runtime) (call_get_customer 7) sample_world) = Raise (NotFound 7)
  /\ (NotFound 7 = NotFound 7 -> 7 = 7).
Proof.
  pose proof (proj1 failures_name_their_kind sample_runtime (call_get_customer 7)
                sample_world) as A.
  split.
  - destruct (fst (call_tool (R := sample_runtime) (call_get_customer 7) sample_world)) eqn:E;
      vm_compute in E; [discriminate E|].
    injection E as <-. reflexivity.
  - exact (proj1 (proj2 failures_name_their_kind) 7 7).
Defined.

(** ** Ticket lists: C5 *)

Lemma string_leb_iff a b :
  (a <=? b)%string = true <-> a = b \/ String_as_OT.lt a b.
Proof.
  unfold String.leb.
  pose proof (String_as_OT.cmp_eq a b) as E.
  pose proof (String_as_OT.cmp_lt a b) as L.
  pose proof (String_as_OT.cmp_antisym a b) as A.
  pose proof (String_as_OT.cmp_lt b a) as L'.
  unfold String_as_OT.cmp in *.
  destruct (String.compare a b) eqn:C; split; intros H; try reflexivity.
  - left. apply E. reflexivity.
  - right. apply L. reflexivity.
  - discriminate.
  - exfalso. symmetry in A. apply CompOpp_iff in A. simpl in A.
    apply L' in A. destruct H as [->|H].
    + exact (String_as_OT.lt_not_eq _ _ A eq_refl).
    + exact (String_as_OT.lt_not_eq _ _ (String_as_OT.lt_trans _ _ _ A H) eq_refl).
Qed.

Lemma string_leb_trans a b c :
  (a <=? b)%string = true -> (b <=? c)%string = true -> (a <=? c)%string = true.
Proof.
  rewrite !string_leb_iff. intros [->|H1] [->|H2]; auto.
  right. exact (String_as_OT.lt_trans _ _ _ H1 H2).
Qed.

Lemma insert_desc_perm t l : Permutation (t :: l) (insert_desc t l).
Proof.
  induction l as [|x l IH]; simpl.
  - apply Permutation_refl.
  - destruct (_ <=? _)%string.
    + apply Permutation_refl.
    + apply perm_trans with (x :: t :: l).
      * apply perm_swap.
      * apply perm_skip, IH.
Qed.

Lemma order_by_perm l : Permutation l (order_by_opened_at_desc l).
Proof.
  induction l as [|x l IH]; simpl.
  - apply perm_nil.
  - apply perm_trans with (x :: order_by_opened_at_desc l).
    + apply perm_skip, IH.
    + apply insert_desc_perm.
Qed.

Lemma insert_desc_sorted t l :
  StronglySorted row_not_older l -> StronglySorted row_not_older (insert_desc t l).
Proof.
  induction 1 as [|x l S IH F]; simpl.
  - repeat constructor.
  - destruct (_ <=? _)%string eqn:E.
    + constructor; [constructor; assumption|].
      constructor; [exact E|].
      rewrite Forall_forall in *. intros y Hy.
      unfold row_not_older in *. eapply string_leb_trans; [apply F, Hy|exact E].
    + constructor; [exact IH|].
      rewrite Forall_forall in *. intros y Hy.
      apply (Permutation_in _ (Permutation_sym (insert_desc_perm t l))) in Hy.
      destruct Hy as [<-|Hy]; [|apply F, Hy].
      unfold row_not_older.
      destruct (String.leb_total (SupportTickets.opened_at x) (SupportTickets.opened_at t))
        as [T|T]; [congruence|exact T].
Qed.

Lemma order_by_sorted l : StronglySorted row_not_older (order_by_opened_at_desc l).
Proof.
  induction l as [|x l IH]; simpl.
  - constructor.
  - apply insert_desc_sorted, IH.
Qed.

Lemma newest_first_map l :
  StronglySorted row_not_older l -> newest_first (map SupportTicket_of_row l).
Proof.
  unfold newest_first. induction 1 as [|x l S IH F]; simpl; constructor.
  - exact IH.
  - rewrite Forall_forall in *. intros y Hy.
    apply in_map_iff in Hy. destruct Hy as [r [<- Hr]].
    exact (F r Hr).
Qed.



Lemma filter_all {A} (p : A -> bool) l :
  (forall x, In x l -> p x = true) -> filter p l = l.
Proof.
  induction l as [|x l IH]; simpl; intros H; [reflexivity|].
  rewrite (H x (or_introl eq_refl)). f_equal. apply IH. auto.
Qed.

Lemma filter_none {A} (p : A -> bool) l :
  (forall x, In x l -> p x = false) -> filter p l = [].
Proof.
  induction l as [|x l IH]; simpl; intros H; [reflexivity|].
  rewrite (H x (or_introl eq_refl)). apply IH. auto.
Qed.

(** ** Unknown customers and their tickets: C2 *)

Lemma selected_tickets_of cid open_only s :
  filter (ticket_selected cid open_only) (tbl_SupportTickets s)
  = filter (fun t => if open_only then is_open t else true) (tickets_of s cid).
Proof.
  unfold tickets_of. induction (tbl_SupportTickets s) as [|x l IH]; simpl.
  - reflexivity.
  - unfold ticket_selected at 1.
    destruct (SupportTickets.customer_id x =? cid); simpl; [|exact IH].
    unfold is_open at 1.
    destruct open_only; simpl;
      [destruct (negb _)|]; simpl; rewrite IH; reflexivity.
Qed.

Lemma tickets_of_unknown s cid :
  tickets_belong s -> ~ has_customer s cid -> tickets_of s cid = [].
Proof.
  intros B N. unfold tickets_of. apply filter_none. intros t Ht.
  apply Z.eqb_neq. intros E. apply N. rewrite <- E. apply B, Ht.
Qed.

(** C2, as the handlers have it: when nothing fails, for a customer id
    without a row in the store [get_customer] and [get_billing_summary] raise
    the not-found error that names the id, while [get_support_tickets], for
    both values of [open_only], raises nothing and returns the tickets
    stored under that id: the empty list when there is none, so whenever
    every stored ticket belongs to a stored customer.  For an id with a row,
    [get_customer] returns the customer with that id and the name, email,
    phone and loyalty level of a stored row with that id. *)
Theorem unknown_customer_lookups :
  forall (R : Runtime) cid w,
    faults w = [] ->
    (~ has_customer (disk w) cid ->
     fst (get_customer cid w) = Raise (NotFound cid)
     /\ fst (get_billing_summary cid w) = Raise (NotFound cid)
     /\ forall open_only,
          exists l,
            fst (get_support_tickets cid open_only w) = Return l
            /\ Permutation l
                 (map SupportTicket_of_row
                    (filter (fun t => if open_only then is_open t else true)
                       (tickets_of (disk w) cid)))
            /\ (tickets_of (disk w) cid = [] -> l = [])
            /\ (tickets_belong (disk w) -> l = []))
    /\ (has_customer (disk w) cid ->
        exists row c,
          In row (tbl_Customers (disk w))
          /\ Customers.customer_id row = cid
          /\ fst (get_customer cid w) = Return c
          /\ Customer.customer_id c = cid
          /\ Customer.first_name c = Customers.first_name row
          /\ Customer.last_name c = Customers.last_name row
          /\ Customer.email c = Customers.email row
          /\ Customer.phone c = Customers.phone row
          /\ Customer.loyalty_level c = Customers.loyalty_level row).
Proof.
  intros R cid w F. split.
  - intros N. rewrite get_customer_run, get_billing_summary_run by assumption.
    rewrite (select_customer_absent _ _ N). simpl.
    split; [reflexivity|]. split; [reflexivity|]. intros open_only.
    rewrite get_support_tickets_run by assumption. simpl.
    unfold select_tickets. rewrite selected_tickets_of.
    eexists. split; [reflexivity|]. split; [|split].
    + apply Permutation_map, Permutation_sym, order_by_perm.
    + intros ->. reflexivity.
    + intros B. rewrite (tickets_of_unknown _ _ B N). reflexivity.
  - intros H. destruct (select_customer_present _ _ H) as [row [E [Hin Hid]]].
    exists row, (Customer_of_row row).
    rewrite get_customer_run by assumption. rewrite E. simpl.
    repeat split; assumption.
Qed.

(** C2 as stated fails: a ticket filed under an id that has no customer row
    is returned by [get_support_tickets] for that id, while [get_customer]
    raises the not-found error. *)
Lemma orphan_ticket_is_returned :
  (~ has_customer orphan_store 7
   /\ fst (get_customer 7 (on_store sample_world orphan_store)) = Raise (NotFound 7)
   /\ map SupportTicket.ticket_id
        match fst (get_support_tickets 7 false (on_store sample_world orphan_store)) with
        | Return l => l
        | Raise _ => []
        end = [5])
  /\ ~ (forall cid w,
          faults w = [] -> ~ has_customer (disk w) cid ->
          forall open_only, fst (get_support_tickets cid open_only w) = Return []).
Proof.
  assert (N : ~ has_customer orphan_store 7).
  { intros [c [Hin Hc]]. simpl in Hin.
    destruct Hin as [<-|[<-|[]]]; discriminate Hc. }
  split.
  - split; [exact N|]. split; reflexivity.
  - intros H.
    specialize (H 7 (on_store sample_world orphan_store) eq_refl N false).
    vm_compute in H. discriminate H.
Qed.

Lemma unknown_customer_lookups_witness :
  (fst (get_customer 7 sample_world) = Raise (NotFound 7)
   /\ fst (get_billing_summary (R := sample_runtime) 7 sample_world)
      = Raise (NotFound 7)
   /\ fst (get_support_tickets 7 true sample_world) = Return []
   /\ fst (get_support_tickets 7 false sample_world) = Return [])
  /\ exists c,
       fst (get_customer 1 sample_world) = Return c
       /\ Customer.customer_id c = 1
       /\ Customer.first_name c = "Ada"
       /\ Customer.last_name c = "Lovelace"
       /\ Customer.email c = "ada@contoso.com"
       /\ Customer.phone c = None
       /\ Customer.loyalty_level c = "Gold".
Proof.
  split.
  - destruct (proj1 (unknown_customer_lookups sample_runtime 7 sample_world eq_refl)
                sample_has_no_customer_7) as [A [B C]].
    split; [exact A|]. split; [exact B|].
    split.
    + destruct (C true) as [l [E [_ [_ L]]]].
      rewrite E, (L sample_tickets_belong). reflexivity.
    + destruct (C false) as [l [E [_ [_ L]]]].
      rewrite E, (L sample_tickets_belong). reflexivity.
  - destruct (proj2 (unknown_customer_lookups sample_runtime 1 sample_world eq_refl)
                sample_has_customer_1)
      as [row [c [Hin [Hid [E [I [F [L [M [P Y]]]]]]]]]].
    exists c. split; [exact E|]. split; [exact I|].
    vm_compute in E. injection E as <-.
    repeat split.
Defined.

(** ** The billing summary: C1 *)

(** A key that is already there is not inserted again. *)
Lemma insert_key_twice k : forall l, insert_key k (insert_key k l) = insert_key k l.
Proof.
  induction l as [|x l IH]; simpl.
  - rewrite Z.ltb_irrefl, Z.eqb_refl. reflexivity.
  - destruct (k <? x) eqn:L; simpl.
    + rewrite Z.ltb_irrefl, Z.eqb_refl. reflexivity.
    + destruct (k =? x) eqn:E; simpl; rewrite L, E; [reflexivity|].
      rewrite IH. reflexivity.
Qed.

(** A run of equal keys counts as one key. *)
Lemma group_keys_block k l : forall blk,
  (forall y, In y blk -> y = k) ->
  group_keys (k :: blk ++ l) = insert_key k (group_keys l).
Proof.
  induction blk as [|y blk IH]; intros B; [reflexivity|].
  rewrite (B y (or_introl eq_refl)).
  change (group_keys (k :: (k :: blk) ++ l))
    with (insert_key k (group_keys (k :: blk ++ l))).
  rewrite IH by (intros z Hz; apply B; right; exact Hz).
  apply insert_key_twice.
Qed.

Lemma in_insert_invoice inv x : forall l,
  In x (insert_invoice inv l) <-> x = inv \/ In x l.
Proof.
  induction l as [|y l IH]; simpl.
  - intuition.
  - destruct (_ <? _); simpl; [intuition|]. rewrite IH. intuition.
Qed.

Lemma insert_invoice_perm inv l : Permutation (inv :: l) (insert_invoice inv l).
Proof.
  induction l as [|x l IH]; simpl.
  - apply Permutation_refl.
  - destruct (_ <? _).
    + apply Permutation_refl.
    + apply perm_trans with (x :: inv :: l); [apply perm_swap|apply perm_skip, IH].
Qed.

Lemma sorted_invoices_perm l : Permutation (fold_right insert_invoice [] l) l.
Proof.
  induction l as [|x l IH]; simpl; [apply perm_nil|].
  apply perm_trans with (x :: fold_right insert_invoice [] l).
  - apply Permutation_sym, insert_invoice_perm.
  - apply perm_skip, IH.
Qed.

(** Inserting an invoice whose id is new follows the insertion of its id. *)
Lemma insert_invoice_ids inv : forall l,
  ~ In (Invoices.invoice_id inv) (map Invoices.invoice_id l) ->
  map Invoices.invoice_id (insert_invoice inv l)
  = insert_key (Invoices.invoice_id inv) (map Invoices.invoice_id l).
Proof.
  induction l as [|x l IH]; simpl; intros N; [reflexivity|].
  destruct (_ <? _); [reflexivity|].
  destruct (Z.eqb_spec (Invoices.invoice_id inv) (Invoices.invoice_id x)) as [E|_].
  - exfalso. apply N. left. symmetry. exact E.
  - simpl. f_equal. apply IH. intros H. apply N. right. exact H.
Qed.

Lemma sorted_invoices_ids l :
  NoDup (map Invoices.invoice_id l) ->
  map Invoices.invoice_id (fold_right insert_invoice [] l)
  = group_keys (map Invoices.invoice_id l).
Proof.
  induction l as [|x l IH]; simpl; intros N; [reflexivity|].
  inversion N as [|? ? Hx N']; subst.
  rewrite insert_invoice_ids.
  - rewrite IH by exact N'. reflexivity.
  - intros H. apply Hx. apply in_map_iff in H. destruct H as [y [E Hy]].
    apply (Permutation_in _ (sorted_invoices_perm l)) in Hy.
    rewrite <- E. apply in_map, Hy.
Qed.

Section InvoiceStatement.
Context {R : Runtime}.
Variable s : Store.
Variable cid : Z.

Lemma join_payments_fst inv r : In r (join_payments s inv) -> fst r = inv.
Proof.
  unfold join_payments. destruct (filter _ _) as [|p ps].
  - intros [<-|[]]. reflexivity.
  - intros H. apply in_map_iff in H. destruct H as [x [<- _]]. reflexivity.
Qed.

Lemma join_payments_cons inv :
  exists o rest, join_payments s inv = (inv, o) :: rest.
Proof.
  unfold join_payments. destruct (filter _ _) as [|p ps]; simpl; eauto.
Qed.

(** The aggregate of an invoice's joined rows is what was paid on it. *)
Lemma join_payments_paid inv :
  ifnull (sql_sum (map (fun r => option_map Payments.amount (snd r))
                     (join_payments s inv))) 0%float
  = paid_on s inv.
Proof.
  unfold join_payments, paid_on, sql_sum.
  destruct (filter _ _) as [|p ps]; [reflexivity|].
  rewrite map_map. cbn [snd option_map].
  replace (flat_map (fun v => match v with Some x => [x] | None => [] end)
             (map (fun x => Some (Payments.amount x)) (p :: ps)))
    with (map Payments.amount (p :: ps)).
  - reflexivity.
  - induction (p :: ps) as [|q qs IH]; simpl; [reflexivity|]. f_equal. exact IH.
Qed.

(** The [IN] sub-select picks the invoices of the customer. *)
Lemma owned_customer_invoices L :
  filter (fun inv => sql_in (Invoices.subscription_id inv)
                       (select_subscription_ids cid s)) L
  = filter (fun inv =>
              existsb (fun sub => (Subscriptions.customer_id sub =? cid)
                                  && (Subscriptions.subscription_id sub
                                      =? Invoices.subscription_id inv))
                      (tbl_Subscriptions s)) L.
Proof.
  apply filter_ext. intros inv. unfold sql_in, select_subscription_ids.
  induction (tbl_Subscriptions s) as [|sub l IH]; simpl; [reflexivity|].
  destruct (Subscriptions.customer_id sub =? cid); simpl; [|exact IH].
  rewrite IH. f_equal. apply Z.eqb_sym.
Qed.

Lemma joined_rows_cons inv L :
  joined_rows cid s (inv :: L)
  = (if sql_in (Invoices.subscription_id inv) (select_subscription_ids cid s)
     then join_payments s inv else []) ++ joined_rows cid s L.
Proof.
  unfold joined_rows. simpl. rewrite filter_app. f_equal.
  destruct (sql_in _ _) eqn:O.
  - apply filter_all. intros r Hr. rewrite (join_payments_fst _ _ Hr). exact O.
  - apply filter_none. intros r Hr. rewrite (join_payments_fst _ _ Hr). exact O.
Qed.

Lemma joined_rows_key L r :
  In r (joined_rows cid s L) ->
  In (Invoices.invoice_id (fst r)) (map Invoices.invoice_id L).
Proof.
  unfold joined_rows. intros H. apply filter_In in H. destruct H as [H _].
  apply in_flat_map in H. destruct H as [inv [Hin Hr]].
  rewrite (join_payments_fst _ _ Hr). apply in_map, Hin.
Qed.

(** The keys of the groups are the ids of the customer's invoices. *)
Lemma joined_rows_group_keys L :
  group_keys (map (fun r => Invoices.invoice_id (fst r)) (joined_rows cid s L))
  = group_keys
      (map Invoices.invoice_id
         (filter (fun inv => sql_in (Invoices.subscription_id inv)
                               (select_subscription_ids cid s)) L)).
Proof.
  induction L as [|inv L IH]; [reflexivity|].
  rewrite joined_rows_cons. simpl filter. destruct (sql_in _ _) eqn:O.
  - destruct (join_payments_cons inv) as [o [rest J]].
    assert (B : forall y, In y (map (fun r => Invoices.invoice_id (fst r)) rest) ->
                          y = Invoices.invoice_id inv).
    { intros y Hy. apply in_map_iff in Hy. destruct Hy as [r [<- Hr]].
      rewrite (join_payments_fst inv r); [reflexivity|].
      rewrite J. right. exact Hr. }
    rewrite J, map_app. cbn [map app fst].
    rewrite (group_keys_block _ _ _ B). simpl. rewrite IH. reflexivity.
  - simpl app. exact IH.
Qed.

(** With [invoice_id] a key, the group of an invoice of the customer is made
    of the rows joined to that invoice. *)
Lemma group_of_invoice L : forall inv,
  NoDup (map Invoices.invoice_id L) -> In inv L ->
  sql_in (Invoices.subscription_id inv) (select_subscription_ids cid s) = true ->
  filter (fun r => Invoices.invoice_id (fst r) =? Invoices.invoice_id inv)
    (joined_rows cid s L)
  = join_payments s inv.
Proof.
  induction L as [|x L IH]; intros inv N H O; [contradiction|].
  simpl in N. inversion N as [|? ? Hx N']; subst.
  rewrite joined_rows_cons, filter_app. destruct H as [->|H].
  - rewrite O. rewrite filter_all.
    2:{ intros r Hr. rewrite (join_payments_fst _ _ Hr). apply Z.eqb_refl. }
    rewrite filter_none; [apply app_nil_r|].
    intros r Hr. apply Z.eqb_neq. intros E. apply Hx. rewrite <- E.
    exact (joined_rows_key _ _ Hr).
  - assert (Z : filter (fun r => Invoices.invoice_id (fst r)
                                  =? Invoices.invoice_id inv)
                  (if sql_in (Invoices.subscription_id x)
                        (select_subscription_ids cid s)
                   then join_payments s x else []) = []).
    { apply filter_none. intros r Hr.
      destruct (sql_in (Invoices.subscription_id x) _); [|contradiction].
      rewrite (join_payments_fst _ _ Hr). apply Z.eqb_neq. intros E.
      apply Hx. rewrite E. apply in_map, H. }
    rewrite Z. simpl. apply IH; assumption.
Qed.

Lemma group_row_of_invoice L inv :
  NoDup (map Invoices.invoice_id L) -> In inv L ->
  sql_in (Invoices.subscription_id inv) (select_subscription_ids cid s) = true ->
  group_row (joined_rows cid s L) (Invoices.invoice_id inv)
  = [mkInvoicePaid (Invoices.invoice_id inv) (Invoices.amount inv)
       (Invoices.due_date inv) (paid_on s inv)].
Proof.
  intros N H O. unfold group_row. cbv zeta.
  rewrite (group_of_invoice L inv N H O).
  rewrite join_payments_paid.
  destruct (join_payments_cons inv) as [o [rest J]]. rewrite J. reflexivity.
Qed.

(** With [invoice_id] a key, the statement returns one row per invoice of
    the customer, in ascending [invoice_id]. *)
Lemma select_invoices_paid_spec :
  invoices_key s ->
  select_invoices_paid cid s
  = map (fun inv => mkInvoicePaid (Invoices.invoice_id inv) (Invoices.amount inv)
                      (Invoices.due_date inv) (paid_on s inv))
        (invoices_by_id s cid).
Proof.
  intros K. unfold select_invoices_paid, invoices_by_id, customer_invoices.
  cbv zeta. rewrite joined_rows_group_keys, owned_customer_invoices.
  set (mine := filter _ (tbl_Invoices s)).
  assert (Nm : NoDup (map Invoices.invoice_id mine)).
  { unfold mine. unfold invoices_key in K.
    induction (tbl_Invoices s) as [|x l IH]; simpl; [constructor|].
    inversion K as [|? ? Hx K']; subst.
    destruct (existsb _ _); [|apply IH, K'].
    simpl. constructor; [|apply IH, K'].
    intros H. apply Hx. apply in_map_iff in H. destruct H as [y [E Hy]].
    apply filter_In in Hy. rewrite <- E. apply in_map. tauto. }
  rewrite <- (sorted_invoices_ids mine Nm).
  rewrite flat_map_concat_map, map_map.
  assert (G : forall inv, In inv (fold_right insert_invoice [] mine) ->
                          group_row (joined_rows cid s (tbl_Invoices s))
                            (Invoices.invoice_id inv)
                          = [mkInvoicePaid (Invoices.invoice_id inv)
                               (Invoices.amount inv) (Invoices.due_date inv)
                               (paid_on s inv)]).
  { intros inv Hin. apply (Permutation_in _ (sorted_invoices_perm mine)) in Hin.
    unfold mine in Hin. rewrite <- owned_customer_invoices in Hin.
    apply filter_In in Hin. destruct Hin as [Hin O].
    apply group_row_of_invoice; assumption. }
  induction (fold_right insert_invoice [] mine) as [|inv l IH]; [reflexivity|].
  simpl. rewrite (G inv (or_introl eq_refl)). simpl. f_equal.
  apply IH. intros x Hx. apply G. right. exact Hx.
Qed.
End InvoiceStatement.

(** C1, as the code has it: when nothing fails and [invoice_id] is a key
    of [Invoices], for a customer of the store [get_billing_summary] returns
    a summary for that customer whose breakdown has one entry per invoice of
    the customer, in ascending [invoice_id], with SQLite's sum of the
    invoice's successful payments as [paid] (0 without any) and
    [max(amount - paid, 0.0)] as [outstanding], and whose [total_due] is
    Python's sum of these outstanding amounts in that order: 0, and no
    error, when the customer has no invoice. *)
Theorem billing_total_due :
  forall (R : Runtime) cid w,
    faults w = [] ->
    invoices_key (disk w) ->
    has_customer (disk w) cid ->
    exists b,
      fst (get_billing_summary cid w) = Return b
      /\ BillingSummary.customer_id b = cid
      /\ Permutation (invoices_by_id (disk w) cid) (customer_invoices (disk w) cid)
      /\ BillingSummary.invoices b
         = map (entry_of (disk w)) (invoices_by_id (disk w) cid)
      /\ BillingSummary.total_due b
         = py_sum (map (fun inv =>
                          py_max (PrimFloat.sub (Invoices.amount inv)
                                    (paid_on (disk w) inv)) 0%float)
                       (invoices_by_id (disk w) cid))
      /\ BillingSummary.total_due b
         = py_sum (map InvoiceEntry.outstanding (BillingSummary.invoices b))
      /\ (customer_invoices (disk w) cid = [] -> BillingSummary.total_due b = 0%float).
Proof.
  intros R cid w F K H.
  rewrite get_billing_summary_run by assumption.
  destruct (select_customer_present _ _ H) as [c [E _]]. rewrite E.
  cbv zeta. rewrite select_invoices_paid_spec by assumption.
  eexists. split; [reflexivity|]. cbn [BillingSummary.customer_id
    BillingSummary.invoices BillingSummary.total_due fst].
  rewrite !map_map. cbn [InvoiceEntry.outstanding ip_amount ip_paid
    ip_invoice_id ip_due_date].
  split; [reflexivity|]. split; [apply sorted_invoices_perm|].
  split; [reflexivity|]. split; [reflexivity|]. split; [reflexivity|].
  unfold invoices_by_id. intros ->. simpl. apply py_sum_nil.
Qed.

(** C1 as stated fails: two [Invoices] rows with the same [invoice_id] are
    one group of the statement, so [total_due] counts one invoice where the
    customer has two. *)
Lemma twin_invoices_are_one_group :
  (exists b,
     fst (get_billing_summary (R := sample_runtime) 1
            (on_store sample_world twin_invoice_store)) = Return b
     /\ BillingSummary.total_due b = 100%float
     /\ @py_sum sample_runtime
          (map (outstanding_on (R := sample_runtime) twin_invoice_store)
             (customer_invoices twin_invoice_store 1)) = 200%float)
  /\ ~ (forall (R : Runtime) cid w,
          faults w = [] -> has_customer (disk w) cid ->
          exists b,
            fst (get_billing_summary cid w) = Return b
            /\ BillingSummary.total_due b
               = py_sum (map (outstanding_on (disk w))
                           (customer_invoices (disk w) cid))).
Proof.
  assert (C : has_customer twin_invoice_store 1).
  { exists (Customers.mk 1 "Ada" "Lovelace" "ada@contoso.com" None "Gold").
    split; [left; reflexivity|reflexivity]. }
  split.
  - eexists. split; [reflexivity|]. split; reflexivity.
  - intros H.
    destruct (H sample_runtime 1 (on_store sample_world twin_invoice_store)
                eq_refl C) as [b [E T]].
    vm_compute in E. injection E as <-. vm_compute in T.
    apply (f_equal (fun x => PrimFloat.ltb x 150%float)) in T.
    vm_compute in T. discriminate T.
Qed.

(** The sum is a sum of floats: with outstanding amounts 2^53 and 1, adding
    from left to right gives 2^53. *)
Lemma total_due_is_rounded :
  exists b,
    fst (get_billing_summary (R := sample_runtime) 1
           (on_store sample_world rounding_store)) = Return b
    /\ map InvoiceEntry.outstanding (BillingSummary.invoices b)
       = [9007199254740992%float; 1%float]
    /\ BillingSummary.total_due b = 9007199254740992%float.
Proof.
  eexists. split; [reflexivity|]. split; reflexivity.
Qed.

Lemma sample_invoices_key : invoices_key sample_store.
Proof.
  unfold invoices_key. simpl.
  repeat constructor; simpl; intuition discriminate.
Qed.

Lemma billing_total_due_witness :
  exists b,
    fst (get_billing_summary (R := sample_runtime) 1 sample_world) = Return b
    /\ BillingSummary.total_due b = 110%float
    /\ map InvoiceEntry.invoice_id (BillingSummary.invoices b) = [100; 101]
    /\ map InvoiceEntry.outstanding (BillingSummary.invoices b) = [60%float; 50%float].
Proof.
  destruct (billing_total_due sample_runtime 1 sample_world eq_refl
              sample_invoices_key sample_has_customer_1) as [b [Rb [_ [_ [I [T _]]]]]].
  exists b. split; [exact Rb|]. split; [|split].
  - rewrite T. reflexivity.
  - rewrite I. reflexivity.
  - rewrite I. reflexivity.
Defined.

(** * Further properties of the code *)

(** ** [validate_env] *)

Lemma truthy_is_set env var : truthy (getenv var env) = true <-> is_set env var.
Proof.
  unfold is_set. destruct (getenv var env) as [[|c v]|]; simpl; split.
  - discriminate.
  - intros [value [E N]]. injection E as <-. contradiction.
  - intros _. eexists. split; [reflexivity|discriminate].
  - reflexivity.
  - discriminate.
  - intros [value [E _]]. discriminate E.
Qed.

Lemma missing_vars_none vars env :
  missing_vars vars env = [] <-> Forall (is_set env) vars.
Proof.
  unfold missing_vars. induction vars as [|v vars IH]; simpl.
  - split; [constructor|reflexivity].
  - destruct (truthy (getenv v env)) eqn:T; simpl.
    + rewrite IH. split.
      * intros H. constructor; [apply truthy_is_set, T|exact H].
      * intros H. inversion H; assumption.
    + split; [discriminate|].
      intros H. inversion H as [|? ? S _]; subst.
      apply truthy_is_set in S. congruence.
Qed.

Lemma in_missing_vars vars env var :
  In var (missing_vars vars env) <-> In var vars /\ ~ is_set env var.
Proof.
  unfold missing_vars. rewrite filter_In, negb_true_iff.
  rewrite <- truthy_is_set. destruct (truthy (getenv var env)); intuition congruence.
Qed.

(** [validate_env] returns [True] exactly when every required variable (the
    four Azure OpenAI ones when none is given) has a non-empty value in the
    environment as [load_dotenv] leaves it: a variable set to the empty
    text counts as missing, and an empty list of requirements is met. *)
Theorem validate_env_true_iff :
  forall load_dotenv required_vars p,
    fst (validate_env load_dotenv required_vars p) = true
    <-> Forall (is_set (load_dotenv (environ p)))
          (match required_vars with
           | None => default_required_vars
           | Some vars => vars
           end).
Proof.
  intros load_dotenv required_vars p. unfold validate_env. cbv zeta.
  rewrite <- missing_vars_none.
  destruct (missing_vars _ _); simpl; split; congruence.
Qed.

(** [validate_env] prints one line when it returns [True]; when it returns
    [False] it prints the header, one line per missing variable and the
    footer, and the variables it lists are exactly the required ones that
    are unset or empty.  What was printed before stays, and the environment
    is the one [load_dotenv] left. *)
Theorem validate_env_reports_missing :
  forall load_dotenv required_vars p,
    let env := load_dotenv (environ p) in
    let vars := match required_vars with
                | None => default_required_vars
                | Some vars => vars
                end in
    let (ok, p') := validate_env load_dotenv required_vars p in
    environ p' = env
    /\ (ok = true -> stdout p' = stdout p ++ [validated_line])
    /\ (ok = false ->
        exists missing,
          missing <> []
          /\ stdout p' = stdout p ++ [missing_header] ++ map missing_line missing
                         ++ [missing_footer]
          /\ (forall var, In var missing <-> In var vars /\ ~ is_set env var)).
Proof.
  intros load_dotenv required_vars p env vars. unfold validate_env. cbv zeta.
  fold env. fold vars.
  destruct (missing_vars vars env) as [|m ms] eqn:E.
  - split; [reflexivity|]. split; [reflexivity|discriminate].
  - split; [reflexivity|]. split; [discriminate|]. intros _.
    exists (m :: ms). split; [discriminate|]. split; [reflexivity|].
    intros var. rewrite <- E. apply in_missing_vars.
Qed.

Lemma validate_env_reports_missing_witness :
  let (ok, p') := validate_env no_dotenv None sample_process in
  ok = false
  /\ stdout p' = [missing_header;
                  "   - AZURE_OPENAI_API_KEY";
                  "   - AZURE_OPENAI_API_VERSION";
                  "   - AZURE_OPENAI_CHAT_DEPLOYMENT_NAME";
                  missing_footer]
  /\ exists missing,
       missing <> []
       /\ stdout p' = stdout sample_process ++ [missing_header]
                      ++ map missing_line missing ++ [missing_footer].
Proof.
  pose proof (validate_env_reports_missing no_dotenv None sample_process) as H.
  cbv zeta in H.
  destruct (validate_env no_dotenv None sample_process) as [ok p'] eqn:E.
  vm_compute in E. injection E as <- <-.
  destruct H as [_ [_ H]]. destruct (H eq_refl) as [missing [N [S _]]].
  split; [reflexivity|]. split; [reflexivity|].
  exists missing. split; assumption.
Defined.

Lemma validate_env_true_iff_witness :
  fst (validate_env no_dotenv (Some ["AZURE_OPENAI_ENDPOINT"; "CUSTOM_VAR"])
         sample_process) = true
  /\ ~ Forall (is_set (no_dotenv (environ sample_process))) ["AZURE_OPENAI_API_KEY"].
Proof.
  split.
  - apply (proj2 (validate_env_true_iff no_dotenv
                    (Some ["AZURE_OPENAI_ENDPOINT"; "CUSTOM_VAR"]) sample_process)).
    repeat constructor; eexists; (split; [reflexivity|discriminate]).
  - intros H.
    apply (proj2 (validate_env_true_iff no_dotenv
                    (Some ["AZURE_OPENAI_API_KEY"]) sample_process)) in H.
    vm_compute in H. discriminate H.
Defined.

(** ** Customers: listing and fetching *)

Lemma find_by_key l : forall r,
  NoDup (map Customers.customer_id l) -> In r l ->
  find (fun c => Customers.customer_id c =? Customers.customer_id r) l = Some r.
Proof.
  induction l as [|x l IH]; simpl; intros r N H; [contradiction|].
  inversion N as [|? ? Hx N']; subst.
  destruct H as [->|H].
  - rewrite Z.eqb_refl. reflexivity.
  - destruct (Z.eqb_spec (Customers.customer_id x) (Customers.customer_id r)) as [E|_].
    + exfalso. apply Hx. rewrite E. apply in_map, H.
    + apply IH; assumption.
Qed.

(** When nothing fails and [customer_id] is a key, [list_customers] returns
    one customer per row of the table, in row order, and fetching any listed
    customer by its id afterwards returns that same customer; on an empty
    table it returns the empty list. *)
Theorem listed_customers_can_be_fetched :
  forall w,
    faults w = [] ->
    customers_key (disk w) ->
    exists l,
      fst (list_customers w) = Return l
      /\ map Customer.customer_id l
         = map Customers.customer_id (tbl_Customers (disk w))
      /\ (tbl_Customers (disk w) = [] -> l = [])
      /\ forall c, In c l ->
           fst (get_customer (Customer.customer_id c) (snd (list_customers w)))
           = Return c.
Proof.
  intros w F K. rewrite list_customers_run by assumption. simpl.
  eexists. split; [reflexivity|]. split; [|split].
  - rewrite map_map. reflexivity.
  - intros ->. reflexivity.
  - intros c Hc. apply in_map_iff in Hc. destruct Hc as [r [<- Hr]].
    rewrite get_customer_run by reflexivity. simpl.
    unfold select_customer. simpl.
    rewrite (find_by_key _ r K Hr). reflexivity.
Qed.

Lemma sample_customers_key : customers_key sample_store.
Proof.
  unfold customers_key. simpl.
  repeat constructor; simpl; intuition discriminate.
Qed.

Lemma listed_customers_can_be_fetched_witness :
  exists l,
    fst (list_customers sample_world) = Return l
    /\ map Customer.customer_id l = [1; 2]
    /\ forall c, In c l ->
         fst (get_customer (Customer.customer_id c) (snd (list_customers sample_world)))
         = Return c.
Proof.
  destruct (listed_customers_can_be_fetched sample_world eq_refl sample_customers_key)
    as [l [R [I [_ G]]]].
  exists l. split; [exact R|]. split; [exact I|exact G].
Defined.

(** When nothing fails, the three tools that check the customer agree on
    who exists: [get_customer], [get_billing_summary] and (with an allowed
    priority) [create_support_ticket] return exactly for the ids that have a
    row in [Customers], and raise the not-found error for all others. *)
Theorem customer_checks_agree :
  forall (R : Runtime) cid subject description p w,
    faults w = [] ->
    allowed_priority p ->
    ((exists c, fst (get_customer cid w) = Return c) <-> has_customer (disk w) cid)
    /\ ((exists b, fst (get_billing_summary cid w) = Return b)
        <-> has_customer (disk w) cid)
    /\ ((exists t, fst (create_support_ticket cid subject description p w) = Return t)
        <-> has_customer (disk w) cid)
    /\ (~ has_customer (disk w) cid ->
        fst (get_customer cid w) = Raise (NotFound cid)
        /\ fst (get_billing_summary cid w) = Raise (NotFound cid)
        /\ fst (create_support_ticket cid subject description p w)
           = Raise (NotFound cid)).
Proof.
  intros R cid subject description p w F P.
  rewrite get_customer_run, get_billing_summary_run,
    create_support_ticket_run by assumption.
  destruct (select_customer cid (disk w)) as [r|] eqn:E; cbv zeta.
  - assert (H : has_customer (disk w) cid).
    { unfold select_customer in E. apply find_some in E.
      exists r. split; [tauto|lia]. }
    rewrite select_ticket_inserted by reflexivity. simpl.
    split; [|split; [|split]].
    + split; [intros _; exact H|intros _; eexists; reflexivity].
    + split; [intros _; exact H|intros _; eexists; reflexivity].
    + split; [intros _; exact H|intros _; eexists; reflexivity].
    + intros N. contradiction.
  - pose proof (select_customer_none _ _ E) as N. simpl.
    split; [|split; [|split]].
    + split; [intros [? D]; discriminate D|intros H; contradiction].
    + split; [intros [? D]; discriminate D|intros H; contradiction].
    + split; [intros [? D]; discriminate D|intros H; contradiction].
    + intros _. repeat split.
Qed.

Lemma customer_checks_agree_witness :
  (exists c, fst (get_customer 1 sample_world) = Return c)
  /\ (exists b, fst (get_billing_summary (R := sample_runtime) 1 sample_world) = Return b)
  /\ fst (create_support_ticket 7 "Wifi down" "No signal" "low" sample_world)
     = Raise (NotFound 7).
Proof.
  pose proof (customer_checks_agree sample_runtime 1 "Wifi down" "No signal" "low"
                sample_world eq_refl (or_introl eq_refl)) as [A [B _]].
  pose proof (customer_checks_agree sample_runtime 7 "Wifi down" "No signal" "low"
                sample_world eq_refl (or_introl eq_refl)) as [_ [_ [_ N]]].
  split; [apply A, sample_has_customer_1|].
  split; [apply B, sample_has_customer_1|].
  apply N, sample_has_no_customer_7.
Defined.

(** ** The billing summary: what is owed *)

Lemma py_max_zero_not_below x : PrimFloat.ltb (py_max x 0%float) 0%float = false.
Proof.
  unfold py_max. destruct (PrimFloat.ltb x 0%float) eqn:E; [reflexivity|exact E].
Qed.

(** Whatever the store, the runtime and whatever fails, a summary that
    [get_billing_summary] returns is for the requested customer, who exists;
    each entry's outstanding amount is [max(amount - paid, 0.0)] in float
    arithmetic, so it is never below zero, even when more was paid than
    billed; and [total_due] is Python's sum of the outstanding amounts of
    the entries, in their order. *)
Theorem billing_never_negative :
  forall (R : Runtime) cid w,
    match fst (get_billing_summary cid w) with
    | Return b =>
        BillingSummary.customer_id b = cid
        /\ has_customer (disk w) cid
        /\ BillingSummary.total_due b
           = py_sum (map InvoiceEntry.outstanding (BillingSummary.invoices b))
        /\ (forall e, In e (BillingSummary.invoices b) ->
              InvoiceEntry.outstanding e
              = py_max (PrimFloat.sub (InvoiceEntry.amount e) (InvoiceEntry.paid e))
                  0%float
              /\ PrimFloat.ltb (InvoiceEntry.outstanding e) 0%float = false)
    | Raise _ => True
    end.
Proof.
  intros R cid w. destruct w as [d t o cl n f k].
  unfold_handlers; simpl; unfold select_customer_exists.
  case_split; auto.
  all: match goal with
       | H : option_map _ (select_customer ?c ?s) = Some _ |- _ =>
           destruct (select_customer c s) as [r0|] eqn:E; [|discriminate H];
           apply find_some in E; destruct E as [Hin Hid]
       end.
  all: split; [reflexivity|]; split; [exists r0; split; [exact Hin|lia]|].
  all: split; [reflexivity|].
  all: intros e He; apply in_map_iff in He; destruct He as [x [<- _]];
    cbn [InvoiceEntry.outstanding InvoiceEntry.amount InvoiceEntry.paid];
    split; [reflexivity|apply py_max_zero_not_below].
Qed.

Lemma filter_and {A} (a b : A -> bool) l :
  filter (fun x => a x && b x) l = filter a (filter b l).
Proof.
  induction l as [|x l IH]; simpl; [reflexivity|].
  destruct (b x); simpl; rewrite ?andb_true_r, ?andb_false_r;
    [destruct (a x)|]; simpl; rewrite IH; reflexivity.
Qed.

Lemma join_payments_successful s inv :
  join_payments s inv
  = match filter (fun pay => Payments.invoice_id pay =? Invoices.invoice_id inv)
                 (filter is_successful (tbl_Payments s)) with
    | [] => [(inv, None)]
    | pays => map (fun pay => (inv, Some pay)) pays
    end.
Proof.
  rewrite <- filter_and. reflexivity.
Qed.

Lemma select_invoices_paid_successful {R : Runtime} cid s pays :
  filter is_successful pays = filter is_successful (tbl_Payments s) ->
  select_invoices_paid cid (with_payments s pays) = select_invoices_paid cid s.
Proof.
  intros H. unfold select_invoices_paid, joined_rows. cbv zeta.
  assert (J : forall inv, join_payments (with_payments s pays) inv
                          = join_payments s inv).
  { intros inv. rewrite !join_payments_successful. simpl tbl_Payments.
    rewrite H. reflexivity. }
  simpl tbl_Invoices.
  rewrite (flat_map_ext _ _ J).
  reflexivity.
Qed.

(** When nothing fails, [get_billing_summary] depends on the payments only
    through those with status ['successful']: replacing the [Payments] table
    by one with the same successful payments (adding, dropping or changing
    failed or pending ones) gives the same summary. *)
Theorem billing_counts_successful_payments_only :
  forall (R : Runtime) cid w pays,
    faults w = [] ->
    filter is_successful pays = filter is_successful (tbl_Payments (disk w)) ->
    fst (get_billing_summary cid (on_store w (with_payments (disk w) pays)))
    = fst (get_billing_summary cid w).
Proof.
  intros R cid w pays F H.
  rewrite !get_billing_summary_run by assumption.
  change (select_customer cid (disk (on_store w (with_payments (disk w) pays))))
    with (select_customer cid (disk w)).
  destruct (select_customer cid (disk w)); [|reflexivity].
  cbv zeta. simpl disk.
  rewrite select_invoices_paid_successful by assumption. reflexivity.
Qed.

Lemma billing_counts_successful_payments_only_witness :
  fst (get_billing_summary (R := sample_runtime) 1
         (on_store sample_world
            (with_payments sample_store
               [Payments.mk 100 40%float "successful";
                Payments.mk 101 50%float "pending";
                Payments.mk 200 100%float "successful";
                Payments.mk 200 10%float "successful"])))
  = fst (get_billing_summary (R := sample_runtime) 1 sample_world).
Proof.
  exact (billing_counts_successful_payments_only sample_runtime 1 sample_world _
           eq_refl eq_refl).
Defined.

Lemma billing_never_negative_witness :
  exists b,
    fst (get_billing_summary (R := sample_runtime) 2 sample_world) = Return b
    /\ BillingSummary.total_due b = 0%float
    /\ map InvoiceEntry.paid (BillingSummary.invoices b) = [110%float]
    /\ (forall e, In e (BillingSummary.invoices b) ->
          PrimFloat.ltb (InvoiceEntry.outstanding e) 0%float = false).
Proof.
  pose proof (billing_never_negative sample_runtime 2 sample_world) as H.
  destruct (fst (get_billing_summary (R := sample_runtime) 2 sample_world))
    as [b|e] eqn:E; vm_compute in E; [|discriminate E].
  exists b. split; [reflexivity|].
  destruct H as [_ [_ [_ H]]].
  injection E as <-.
  split; [reflexivity|]. split; [reflexivity|].
  intros e He. exact (proj2 (H e He)).
Defined.

(** ** Creating a ticket: what is committed and when *)

(** Whatever fails, [create_support_ticket] returns a ticket only when the
    priority is allowed and the customer exists, and only after committing
    it: the store is then the old one with exactly the new row appended, the
    ticket returned is that row, and the connection is closed.  When it
    raises a [ValueError] (bad priority, customer not found) the store is
    unchanged. *)
Theorem create_returns_committed_ticket :
  forall cid subject description p w,
    match create_support_ticket cid subject description p w with
    | (Return t, w') =>
        allowed_priority p
        /\ has_customer (disk w) cid
        /\ disk w' = with_ticket (disk w) (new_ticket w cid subject description p)
        /\ t = SupportTicket_of_row (new_ticket w cid subject description p)
        /\ txn w' = None
        /\ opened_by w w' = 1%nat /\ closed_by w w' = 1%nat
    | (Raise (ValueError _), w') => disk w' = disk w
    | (Raise _, _) => True
    end.
Proof.
  intros cid subject description p w. unfold create_support_ticket.
  destruct (existsb _ _) eqn:P; simpl; [|reflexivity].
  apply priority_check in P.
  destruct w as [d t o cl n f k].
  unfold_handlers; simpl; unfold select_customer_exists, new_ticket, with_ticket.
  case_split; auto.
  all: match goal with
       | H : select_ticket _ _ = Some _ |- _ =>
           rewrite select_ticket_new in H; injection H as <-
       end.
  all: match goal with
       | H : option_map _ (select_customer ?c ?s) = Some _ |- _ =>
           destruct (select_customer c s) as [r0|] eqn:E; [|discriminate H];
           apply find_some in E; destruct E as [Hin Hid]
       end.
  all: unfold opened_by, closed_by; cbn [opened closed disk txn].
  all: repeat split; try exact P; try lia.
  all: exists r0; split; [exact Hin|lia].
Qed.

Ltac run_create P E :=
  unfold create_support_ticket; rewrite P; unfold_handlers; simpl;
  unfold select_customer_exists; try rewrite E; simpl;
  try rewrite select_ticket_new; simpl;
  unfold closed_by, new_ticket, with_ticket; cbn [closed disk];
  repeat split; lia.

(** For an allowed priority and an existing customer, a failure up to and
    including the commit (the customer query, the subscription query, the
    insert or the commit raising) leaves the store unchanged; a failure after
    the commit is still reported as an error although the ticket is stored:
    when reading the new row back raises (the connection is then left open),
    and when the row read back fails validation. *)
Theorem failure_after_commit_keeps_ticket :
  forall cid subject description p w rest,
    allowed_priority p ->
    has_customer (disk w) cid ->
    (forall n, (n < 4)%nat ->
       faults w = repeat false n ++ true :: rest ->
       let (r, w') := create_support_ticket cid subject description p w in
       r = Raise sqlite3_Error /\ disk w' = disk w)
    /\ (faults w = repeat false 4 ++ true :: rest ->
        let (r, w') := create_support_ticket cid subject description p w in
        r = Raise sqlite3_Error
        /\ disk w' = with_ticket (disk w) (new_ticket w cid subject description p)
        /\ closed_by w w' = 0%nat)
    /\ (faults w = repeat false 5 ++ true :: rest ->
        let (r, w') := create_support_ticket cid subject description p w in
        r = Raise pydantic_ValidationError
        /\ disk w' = with_ticket (disk w) (new_ticket w cid subject description p)
        /\ closed_by w w' = 1%nat).
Proof.
  intros cid subject description p w rest P H.
  apply priority_check in P.
  destruct (select_customer_present _ _ H) as [c [E _]].
  destruct w as [d t o cl n f k]. cbn [disk faults] in *.
  split; [|split].
  - intros m Hm F. subst f.
    destruct m as [|[|[|[|m]]]]; [| | | |lia]; simpl; run_create P E.
  - intros F. subst f. simpl. run_create P E.
  - intros F. subst f. simpl. run_create P E.
Qed.

Lemma failure_after_commit_keeps_ticket_witness :
  let (r, w') :=
    create_support_ticket 1 "Wifi down" "No signal" "high" late_failing_world in
  r = Raise sqlite3_Error
  /\ map SupportTickets.ticket_id (tbl_SupportTickets (disk w')) = [1; 2; 3; 4; 5]
  /\ closed_by late_failing_world w' = 0%nat.
Proof.
  pose proof (failure_after_commit_keeps_ticket 1 "Wifi down" "No signal" "high"
                late_failing_world [] (or_intror (or_intror eq_refl))
                sample_has_customer_1) as [_ [H _]].
  specialize (H eq_refl).
  destruct (create_support_ticket 1 "Wifi down" "No signal" "high" late_failing_world)
    as [r w'].
  destruct H as [R [D C]]. split; [exact R|]. split; [|exact C].
  rewrite D. reflexivity.
Defined.

(** ** Creating a ticket and looking it up *)

Lemma select_tickets_with_ticket cid open_only s t :
  ticket_selected cid open_only t = true ->
  Permutation (select_tickets cid open_only (with_ticket s t))
              (t :: select_tickets cid open_only s).
Proof.
  intros H. unfold select_tickets, with_ticket. simpl.
  rewrite filter_app. simpl. rewrite H.
  apply perm_trans with (filter (ticket_selected cid open_only) (tbl_SupportTickets s)
                         ++ [t]).
  - apply Permutation_sym, order_by_perm.
  - apply perm_trans with (t :: filter (ticket_selected cid open_only)
                                  (tbl_SupportTickets s)).
    + apply Permutation_sym, Permutation_cons_append.
    + apply perm_skip, order_by_perm.
Qed.

Lemma select_tickets_other_ticket cid open_only s t :
  ticket_selected cid open_only t = false ->
  select_tickets cid open_only (with_ticket s t) = select_tickets cid open_only s.
Proof.
  intros H. unfold select_tickets, with_ticket. simpl.
  rewrite filter_app. simpl. rewrite H. rewrite app_nil_r. reflexivity.
Qed.

(** When nothing fails, a ticket just created for a customer is among the
    tickets [get_support_tickets] then returns for that customer, with and
    without [open_only], and each of these lists is the one from before the
    creation with that one ticket added. *)
Theorem created_ticket_is_listed :
  forall cid subject description p open_only w,
    faults w = [] ->
    allowed_priority p ->
    has_customer (disk w) cid ->
    let (r, w') := create_support_ticket cid subject description p w in
    exists t before after,
      r = Return t
      /\ fst (get_support_tickets cid open_only w) = Return before
      /\ fst (get_support_tickets cid open_only w') = Return after
      /\ In t after
      /\ Permutation after (t :: before)
      /\ newest_first after.
Proof.
  intros cid subject description p open_only w F P H.
  rewrite create_support_ticket_run by assumption.
  destruct (select_customer_present _ _ H) as [c [E _]]. rewrite E. cbv zeta.
  rewrite select_ticket_inserted by reflexivity.
  rewrite !get_support_tickets_run by (assumption || reflexivity).
  cbn [fst disk after_call].
  eexists; eexists; eexists.
  split; [reflexivity|]. split; [reflexivity|]. split; [reflexivity|].
  assert (S : ticket_selected cid open_only (new_ticket w cid subject description p)
              = true).
  { unfold ticket_selected, new_ticket. simpl. rewrite Z.eqb_refl.
    destruct open_only; reflexivity. }
  assert (Q : Permutation
                (map SupportTicket_of_row
                   (select_tickets cid open_only
                      (with_ticket (disk w) (new_ticket w cid subject description p))))
                (SupportTicket_of_row (new_ticket w cid subject description p)
                 :: map SupportTicket_of_row (select_tickets cid open_only (disk w)))).
  { apply (Permutation_map SupportTicket_of_row
             (select_tickets_with_ticket cid open_only (disk w) _ S)). }
  split; [|split].
  - apply (Permutation_in _ (Permutation_sym Q)). left. reflexivity.
  - exact Q.
  - apply newest_first_map, order_by_sorted.
Qed.

Lemma created_ticket_is_listed_witness :
  let (r, w') := create_support_ticket 1 "Wifi down" "No signal" "high" sample_world in
  exists t after,
    r = Return t
    /\ fst (get_support_tickets 1 true w') = Return after
    /\ In t after
    /\ map SupportTicket.ticket_id after = [5; 3; 1].
Proof.
  pose proof (created_ticket_is_listed 1 "Wifi down" "No signal" "high" true
                sample_world eq_refl (or_intror (or_intror eq_refl))
                sample_has_customer_1) as H.
  destruct (create_support_ticket 1 "Wifi down" "No signal" "high" sample_world)
    as [r w'] eqn:E.
  destruct H as [t [before [after [R [_ [A [I _]]]]]]].
  exists t, after. split; [exact R|]. split; [exact A|]. split; [exact I|].
  vm_compute in E. injection E as <- <-.
  vm_compute in A. injection A as <-. reflexivity.
Defined.

Lemma select_customer_with_ticket c s t :
  select_customer c (with_ticket s t) = select_customer c s.
Proof. reflexivity. Qed.

Lemma select_invoices_paid_with_ticket {R : Runtime} c s t :
  select_invoices_paid c (with_ticket s t) = select_invoices_paid c s.
Proof. reflexivity. Qed.

(** When nothing fails, creating a ticket for one customer changes no other
    lookup: [get_support_tickets] for every other customer, [list_customers],
    [get_customer] and [get_billing_summary] return afterwards what they
    returned before. *)
Theorem create_leaves_other_lookups :
  forall (R : Runtime) cid subject description p w,
    faults w = [] ->
    allowed_priority p ->
    let w' := snd (create_support_ticket cid subject description p w) in
    (forall other open_only,
        other <> cid ->
        fst (get_support_tickets other open_only w')
        = fst (get_support_tickets other open_only w))
    /\ fst (list_customers w') = fst (list_customers w)
    /\ (forall c, fst (get_customer c w') = fst (get_customer c w))
    /\ (forall c, fst (get_billing_summary c w') = fst (get_billing_summary c w)).
Proof.
  intros R cid subject description p w F P.
  rewrite create_support_ticket_run by assumption.
  destruct (select_customer cid (disk w)) as [c0|]; cbv zeta; cbn [snd].
  - split; [|split; [|split]].
    + intros other open_only N.
      rewrite !get_support_tickets_run by (assumption || reflexivity).
      cbn [fst disk after_call].
      rewrite select_tickets_other_ticket; [reflexivity|].
      unfold ticket_selected, new_ticket. simpl.
      destruct (Z.eqb_spec cid other); [congruence|reflexivity].
    + rewrite !list_customers_run by (assumption || reflexivity). reflexivity.
    + intros c. rewrite !get_customer_run by (assumption || reflexivity).
      reflexivity.
    + intros c. rewrite !get_billing_summary_run by (assumption || reflexivity).
      cbn [disk after_call].
      rewrite select_customer_with_ticket, select_invoices_paid_with_ticket.
      destruct (select_customer c (disk w)); reflexivity.
  - split; [|split; [|split]].
    + intros other open_only N.
      rewrite !get_support_tickets_run by (assumption || reflexivity). reflexivity.
    + rewrite !list_customers_run by (assumption || reflexivity). reflexivity.
    + intros c. rewrite !get_customer_run by (assumption || reflexivity).
      reflexivity.
    + intros c. rewrite !get_billing_summary_run by (assumption || reflexivity).
      cbn [disk after_call].
      destruct (select_customer c (disk w)); reflexivity.
Qed.

Lemma create_leaves_other_lookups_witness :
  let w' := snd (create_support_ticket 1 "Wifi down" "No signal" "high" sample_world) in
  fst (get_support_tickets 2 false w') = fst (get_support_tickets 2 false sample_world)
  /\ fst (get_billing_summary (R := sample_runtime) 1 w') = fst (get_billing_summary (R := sample_runtime) 1 sample_world).
Proof.
  destruct (create_leaves_other_lookups sample_runtime 1 "Wifi down" "No signal"
              "high" sample_world
              eq_refl (or_intror (or_intror eq_refl))) as [T [_ [_ B]]].
  split; [apply T; discriminate|apply B].
Defined.

(** When nothing fails, the ticket [create_support_ticket] stores is filed
    under the customer of the call, and its subscription is one of that
    customer's own, never another customer's; it has none exactly when the
    customer has no subscription. *)
Theorem ticket_subscription_belongs_to_customer :
  forall cid subject description p w,
    faults w = [] ->
    allowed_priority p ->
    has_customer (disk w) cid ->
    exists row,
      disk (snd (create_support_ticket cid subject description p w))
      = with_ticket (disk w) row
      /\ SupportTickets.customer_id row = cid
      /\ match SupportTickets.subscription_id row with
         | Some sid =>
             exists sub, In sub (tbl_Subscriptions (disk w))
                         /\ Subscriptions.customer_id sub = cid
                         /\ Subscriptions.subscription_id sub = sid
         | None =>
             forall sub, In sub (tbl_Subscriptions (disk w)) ->
                         Subscriptions.customer_id sub <> cid
         end.
Proof.
  intros cid subject description p w F P H.
  rewrite create_support_ticket_run by assumption.
  destruct (select_customer_present _ _ H) as [c [E _]]. rewrite E. cbv zeta.
  exists (new_ticket w cid subject description p).
  split; [reflexivity|]. split; [reflexivity|].
  unfold new_ticket. cbn [SupportTickets.subscription_id].
  rewrite select_first_subscription_first. unfold first_subscription.
  destruct (find _ _) as [sub|] eqn:S; simpl.
  - apply find_some in S. exists sub. intuition lia.
  - intros sub Hin. apply (find_none _ _ S) in Hin. lia.
Qed.

Lemma ticket_subscription_belongs_to_customer_witness :
  exists row,
    disk (snd (create_support_ticket 2 "Cable" "Loose" "low" sample_world))
    = with_ticket sample_store row
    /\ SupportTickets.customer_id row = 2
    /\ SupportTickets.subscription_id row = Some 20.
Proof.
  destruct (ticket_subscription_belongs_to_customer 2 "Cable" "Loose" "low"
              sample_world eq_refl (or_introl eq_refl)) as [row [D [C _]]].
  - exists (Customers.mk 2 "Bo" "Berg" "bo@contoso.com" (Some "555-0100") "Silver").
    simpl. auto.
  - exists row. split; [exact D|]. split; [exact C|].
    vm_compute in D. injection D as D. rewrite <- D. reflexivity.
Defined.

(** ** Timestamps sort as time does *)

Lemma ascii_compare_refl c : Ascii.compare c c = Eq.
Proof. apply Ascii_as_OT.cmp_eq. reflexivity. Qed.

Lemma compare_append (p1 : string) : forall (p2 s1 s2 : string),
  String.length p1 = String.length p2 ->
  (p1 ++ s1 ?= p2 ++ s2)%string
  = match (p1 ?= p2)%string with
    | Eq => (s1 ?= s2)%string
    | c => c
    end.
Proof.
  induction p1 as [|c p1 IH]; intros [|d p2] s1 s2 L; simpl in *;
    try discriminate; [reflexivity|].
  destruct (Ascii.compare c d); [|reflexivity|reflexivity].
  apply IH. lia.
Qed.

Lemma compare_separator (c : ascii) (s1 s2 : string) :
  (String c EmptyString ++ s1 ?= String c EmptyString ++ s2)%string
  = (s1 ?= s2)%string.
Proof. simpl. rewrite ascii_compare_refl. reflexivity. Qed.

Lemma pad2_compare a b :
  0 <= a < 100 -> 0 <= b < 100 ->
  (pad2 a ?= pad2 b)%string = (a ?= b).
Proof.
  intros Ha Hb.
  assert (C : forallb
                (fun x =>
                   forallb
                     (fun y =>
                        match (pad2 (Z.of_nat x) ?= pad2 (Z.of_nat y))%string,
                              (Z.of_nat x ?= Z.of_nat y) with
                        | Eq, Eq | Lt, Lt | Gt, Gt => true
                        | _, _ => false
                        end)
                     (seq 0 100))
                (seq 0 100) = true) by (vm_compute; reflexivity).
  rewrite forallb_forall in C.
  specialize (C (Z.to_nat a)). rewrite in_seq in C.
  assert (Ia : (0 <= Z.to_nat a < 0 + 100)%nat) by lia.
  specialize (C Ia). rewrite forallb_forall in C.
  specialize (C (Z.to_nat b)). rewrite in_seq in C.
  assert (Ib : (0 <= Z.to_nat b < 0 + 100)%nat) by lia.
  specialize (C Ib). rewrite !Z2Nat.id in C by lia.
  destruct (pad2 a ?= pad2 b)%string, (a ?= b); congruence.
Qed.

Lemma digit_ext x y : x mod 10 = y mod 10 -> digit x = digit y.
Proof. unfold digit. intros ->. reflexivity. Qed.

Lemma pad4_split n :
  0 <= n -> pad4 n = (pad2 (n / 100) ++ pad2 (n mod 100))%string.
Proof.
  intros H.
  assert (E1 : digit (n / 1000) = digit (n / 100 / 10))
    by (apply digit_ext; f_equal; Z.div_mod_to_equations; lia).
  assert (E2 : digit (n / 10) = digit (n mod 100 / 10))
    by (apply digit_ext; Z.div_mod_to_equations; lia).
  assert (E3 : digit n = digit (n mod 100))
    by (apply digit_ext; Z.div_mod_to_equations; lia).
  unfold pad4, pad2. simpl. rewrite E1, E2, E3. reflexivity.
Qed.

Lemma pad4_compare a b :
  0 <= a < 10000 -> 0 <= b < 10000 ->
  (pad4 a ?= pad4 b)%string = (a ?= b).
Proof.
  intros Ha Hb. rewrite !pad4_split by lia.
  rewrite compare_append by reflexivity.
  rewrite !pad2_compare by (Z.div_mod_to_equations; lia).
  destruct (Z.compare_spec (a / 100) (b / 100)) as [E|E|E].
  - destruct (Z.compare_spec (a mod 100) (b mod 100)) as [F|F|F]; symmetry.
    + apply Z.compare_eq_iff. Z.div_mod_to_equations. lia.
    + apply Z.compare_lt_iff. Z.div_mod_to_equations. lia.
    + apply Z.compare_gt_iff. Z.div_mod_to_equations. lia.
  - symmetry. apply Z.compare_lt_iff. Z.div_mod_to_equations. lia.
  - symmetry. apply Z.compare_gt_iff. Z.div_mod_to_equations. lia.
Qed.

Lemma strftime_compare a b :
  valid_datetime a -> valid_datetime b ->
  (strftime a ?= strftime b)%string = seconds_compare a b.
Proof.
  unfold valid_datetime. intros Va Vb.
  unfold strftime, seconds_compare, datetime_fields. simpl lex_compare.
  rewrite compare_append by reflexivity. rewrite pad4_compare by lia.
  destruct (year a ?= year b); try reflexivity.
  rewrite compare_separator, compare_append by reflexivity.
  rewrite pad2_compare by lia.
  destruct (month a ?= month b); try reflexivity.
  rewrite compare_separator, compare_append by reflexivity.
  rewrite pad2_compare by lia.
  destruct (day a ?= day b); try reflexivity.
  rewrite compare_separator, compare_append by reflexivity.
  rewrite pad2_compare by lia.
  destruct (hour a ?= hour b); try reflexivity.
  rewrite compare_separator, compare_append by reflexivity.
  rewrite pad2_compare by lia.
  destruct (minute a ?= minute b); try reflexivity.
  rewrite compare_separator.
  rewrite pad2_compare by lia.
  destruct (second a ?= second b); reflexivity.
Qed.

Lemma lex_compare_eq a : forall b, lex_compare a b = Eq -> a = b.
Proof.
  induction a as [|x a IH]; intros [|y b]; simpl; try discriminate; [reflexivity|].
  destruct (Z.compare_spec x y) as [->|_|_]; try discriminate.
  intros H. f_equal. apply IH, H.
Qed.

Lemma lex_compare_refl l : lex_compare l l = Eq.
Proof.
  induction l as [|x l IH]; simpl; [reflexivity|].
  rewrite Z.compare_refl. exact IH.
Qed.

(** Comparing with the microseconds can only refine the comparison to the
    second. *)
Lemma datetime_compare_refines a b :
  datetime_compare a b
  = match seconds_compare a b with
    | Eq => microsecond a ?= microsecond b
    | c => c
    end.
Proof.
  unfold datetime_compare, seconds_compare, datetime_fields. simpl.
  destruct (year a ?= year b); try reflexivity.
  destruct (month a ?= month b); try reflexivity.
  destruct (day a ?= day b); try reflexivity.
  destruct (hour a ?= hour b); try reflexivity.
  destruct (minute a ?= minute b); try reflexivity.
  destruct (second a ?= second b); try reflexivity.
  destruct (microsecond a ?= microsecond b); reflexivity.
Qed.

(** Whatever fails, a ticket that [create_support_ticket] returns carries
    the formatted clock reading as [opened_at]. *)
Lemma created_opened_at cid subject description p w t :
  fst (create_support_ticket cid subject description p w) = Return t ->
  SupportTicket.opened_at t = strftime (clock w).
Proof.
  unfold create_support_ticket.
  destruct (existsb _ _); simpl; [|discriminate].
  destruct w as [d tx o cl n f k].
  unfold_handlers; simpl; unfold select_customer_exists.
  case_split; intros H; try discriminate H.
  all: match goal with
       | E : select_ticket _ _ = Some _ |- _ =>
           rewrite select_ticket_new in E; injection E as <-
       end.
  all: injection H as <-; reflexivity.
Qed.

(** The [opened_at] texts of two tickets that [create_support_ticket]
    returned, at clock readings from year 1000 on, compare byte by byte (as
    [ORDER BY opened_at] compares them) as the two readings compare to the
    second: a ticket created in an earlier second never sorts after one
    created in a later second, and the texts are equal exactly when the
    readings agree to the second, their microseconds being dropped. *)
Theorem timestamps_order_as_time :
  forall cid1 subject1 description1 p1 w1 t1 cid2 subject2 description2 p2 w2 t2,
    valid_datetime (clock w1) -> valid_datetime (clock w2) ->
    fst (create_support_ticket cid1 subject1 description1 p1 w1) = Return t1 ->
    fst (create_support_ticket cid2 subject2 description2 p2 w2) = Return t2 ->
    (SupportTicket.opened_at t1 ?= SupportTicket.opened_at t2)%string
    = seconds_compare (clock w1) (clock w2)
    /\ (seconds_compare (clock w1) (clock w2) = Lt ->
        datetime_compare (clock w1) (clock w2) = Lt
        /\ (SupportTicket.opened_at t1 <? SupportTicket.opened_at t2)%string = true)
    /\ (datetime_compare (clock w1) (clock w2) = Lt ->
        (SupportTicket.opened_at t1 <=? SupportTicket.opened_at t2)%string = true)
    /\ (SupportTicket.opened_at t1 = SupportTicket.opened_at t2
        <-> datetime_fields (clock w1) = datetime_fields (clock w2)).
Proof.
  intros cid1 subject1 description1 p1 w1 t1 cid2 subject2 description2 p2 w2 t2
    V1 V2 R1 R2.
  apply created_opened_at in R1. apply created_opened_at in R2.
  rewrite R1, R2.
  pose proof (strftime_compare _ _ V1 V2) as C.
  pose proof (datetime_compare_refines (clock w1) (clock w2)) as D.
  split; [exact C|]. split; [|split].
  - intros L. rewrite L in D. split; [exact D|].
    unfold String.ltb. rewrite C, L. reflexivity.
  - intros L. unfold String.leb. rewrite C.
    destruct (seconds_compare (clock w1) (clock w2)); try reflexivity.
    rewrite L in D. discriminate D.
  - split.
    + intros E. apply String_as_OT.cmp_eq in E. unfold String_as_OT.cmp in E.
      rewrite C in E. apply lex_compare_eq, E.
    + intros E. apply String_as_OT.cmp_eq. unfold String_as_OT.cmp.
      rewrite C. unfold seconds_compare. rewrite E. apply lex_compare_refl.
Qed.

Lemma timestamps_order_as_time_witness :
  exists t1 t2,
    fst (create_support_ticket 1 "Wifi down" "No signal" "high" sample_world)
    = Return t1
    /\ fst (create_support_ticket 2 "Cable" "Loose" "low" same_second_world)
       = Return t2
    /\ SupportTicket.opened_at t1 = SupportTicket.opened_at t2.
Proof.
  assert (V : valid_datetime (clock same_second_world))
    by (unfold valid_datetime; simpl; lia).
  eexists. eexists. split; [reflexivity|]. split; [reflexivity|].
  apply (proj2 (proj2 (proj2
           (timestamps_order_as_time 1 "Wifi down" "No signal" "high" sample_world _
              2 "Cable" "Loose" "low" same_second_world
              _ sample_clock_valid V eq_refl eq_refl)))).
  reflexivity.
Defined.

Lemma order_by_newest_last t l :
  (forall x, In x l ->
     (SupportTickets.opened_at t <=? SupportTickets.opened_at x)%string = false) ->
  order_by_opened_at_desc (l ++ [t]) = t :: order_by_opened_at_desc l.
Proof.
  induction l as [|x l IH]; intros H; [reflexivity|].
  simpl. rewrite IH by (intros y Hy; apply H; right; exact Hy).
  simpl. rewrite (H x (or_introl eq_refl)). reflexivity.
Qed.

(** When nothing fails and the clock is ahead of the [opened_at] of every
    ticket stored for the customer, the ticket just created is the first
    that [get_support_tickets] returns for the customer, followed by the
    tickets returned before the creation (in some order of equal
    timestamps). *)
Theorem newest_ticket_comes_first :
  forall cid subject description p open_only w,
    faults w = [] ->
    allowed_priority p ->
    has_customer (disk w) cid ->
    (forall r, In r (tickets_of (disk w) cid) ->
       (SupportTickets.opened_at r <? strftime (clock w))%string = true) ->
    let (r, w') := create_support_ticket cid subject description p w in
    exists t before rest,
      r = Return t
      /\ fst (get_support_tickets cid open_only w) = Return before
      /\ fst (get_support_tickets cid open_only w') = Return (t :: rest)
      /\ Permutation rest before.
Proof.
  intros cid subject description p open_only w F P H A.
  rewrite create_support_ticket_run by assumption.
  destruct (select_customer_present _ _ H) as [c [E _]]. rewrite E. cbv zeta.
  rewrite select_ticket_inserted by reflexivity.
  rewrite !get_support_tickets_run by (assumption || reflexivity).
  cbn [fst disk after_call].
  eexists; exists (map SupportTicket_of_row (select_tickets cid open_only (disk w)));
    eexists.
  split; [reflexivity|]. split; [reflexivity|].
  split; [|apply Permutation_refl].
  f_equal. unfold select_tickets, with_ticket. cbn [tbl_SupportTickets].
  rewrite filter_app. cbn [filter].
  replace (ticket_selected cid open_only (new_ticket w cid subject description p))
    with true
    by (unfold ticket_selected, new_ticket; simpl; rewrite Z.eqb_refl;
        destruct open_only; reflexivity).
  rewrite order_by_newest_last; [reflexivity|].
  intros x Hx. apply filter_In in Hx. destruct Hx as [Hx S].
  assert (T : In x (tickets_of (disk w) cid)).
  { unfold tickets_of. apply filter_In. split; [exact Hx|].
    unfold ticket_selected in S. apply andb_true_iff in S. tauto. }
  specialize (A x T). unfold new_ticket. cbn [SupportTickets.opened_at].
  unfold String.ltb in A. unfold String.leb.
  rewrite String.compare_antisym.
  destruct (SupportTickets.opened_at x ?= strftime (clock w))%string;
    try discriminate A. reflexivity.
Qed.

Lemma newest_ticket_comes_first_witness :
  let (r, w') := create_support_ticket 1 "Wifi down" "No signal" "high" sample_world in
  exists t before rest,
    r = Return t
    /\ fst (get_support_tickets 1 false sample_world) = Return before
    /\ fst (get_support_tickets 1 false w') = Return (t :: rest)
    /\ Permutation rest before.
Proof.
  apply (newest_ticket_comes_first 1 "Wifi down" "No signal" "high" false
           sample_world eq_refl (or_intror (or_intror eq_refl))
           sample_has_customer_1).
  intros r Hr. simpl in Hr.
  destruct Hr as [<-|[<-|[<-|[]]]]; reflexivity.
Defined.

Lemma call_tool_keeps_store_witness :
  tickets_belong
    (disk (snd (call_tool (R := sample_runtime) (call_create_support_ticket 1 "Wifi down" "No signal" "high")
                  sample_world)))
  /\ invoices_key
       (disk (snd (call_tool (R := sample_runtime) (call_create_support_ticket 1 "Wifi down" "No signal" "high")
                     sample_world))).
Proof.
  exact (call_tool_keeps_store (R := sample_runtime)
           (call_create_support_ticket 1 "Wifi down" "No signal" "high")
           sample_world sample_tickets_belong sample_invoices_key).
Defined.
